(** * shipit: commit-message formatting, word wrapping, token tiers and the
    interactive commit loop

    A shallow embedding of [utils.ts] and of the [main] function of the
    command-line entry point, with the properties of the specification
    proved over it.

    Strings are [string]: a sequence of code units, one [ascii] each (the
    code units below 256).  Lengths are counted in code units, as the
    [length] property of a JavaScript string does.  Numbers that the code
    compares are [Z]. *)

From Stdlib Require Import String Ascii List ZArith Lia Bool DecimalString.
Import ListNotations.

Open Scope string_scope.
Open Scope list_scope.
Open Scope Z_scope.

Infix "+++" := String.append (at level 60, right associativity).

(* ================================================================= *)
(** ** The string primitives of the host language *)

Module Js.

(** [s.length] *)
Definition len (s : string) : Z := Z.of_nat (String.length s).

(** [s.charAt(0)]: the first code unit as a string, or the empty string. *)
Definition charAt0 (s : string) : string :=
  match s with
  | EmptyString => EmptyString
  | String c _ => String c EmptyString
  end.

(** [s.slice(1)] *)
Definition slice1 (s : string) : string :=
  match s with
  | EmptyString => EmptyString
  | String _ r => r
  end.

(** [s.startsWith(p)] *)
Fixpoint startsWith (s p : string) {struct p} : bool :=
  match p with
  | EmptyString => true
  | String b p' =>
      match s with
      | EmptyString => false
      | String a s' => if Ascii.eqb a b then startsWith s' p' else false
      end
  end.

(** Truthiness of a string: every string but the empty one. *)
Definition truthy (s : string) : bool :=
  match s with
  | EmptyString => false
  | String _ _ => true
  end.

(** [xs.join(sep)] *)
Fixpoint join (sep : string) (xs : list string) : string :=
  match xs with
  | [] => EmptyString
  | [x] => x
  | x :: rest => x +++ sep +++ join sep rest
  end.

(** The pieces of [s] between the code units that satisfy [p]: one
    piece more than there are such code units. *)
Fixpoint splitBy (p : ascii -> bool) (s : string) : list string :=
  match s with
  | EmptyString => [EmptyString]
  | String c r =>
      if p c then EmptyString :: splitBy p r
      else
        match splitBy p r with
        | [] => [String c EmptyString]
        | w :: ws => String c w :: ws
        end
  end.

(** [s.split(sep)] for a separator of one code unit: one piece more than
    there are separators, so the empty string splits into one empty
    piece. *)
Definition split (sep : ascii) (s : string) : list string :=
  splitBy (fun c => Ascii.eqb c sep) s.

(** The class [\s] of regular expressions, on the code units below 256:
    tab, line feed, vertical tab, form feed, carriage return, space and
    the no-break space. *)
Definition isWhitespace (c : ascii) : bool :=
  let n := nat_of_ascii c in
  (Nat.leb 9 n && Nat.leb n 13) || Nat.eqb n 32 || Nat.eqb n 160.

(** [s.replace(/\s+/g, r)]: every maximal run of whitespace becomes one
    [r].  [inRun] tells that the code unit before was whitespace. *)
Fixpoint replaceRuns (r : string) (inRun : bool) (s : string) : string :=
  match s with
  | EmptyString => EmptyString
  | String c rest =>
      if isWhitespace c then
        if inRun then replaceRuns r true rest
        else r +++ replaceRuns r true rest
      else String c (replaceRuns r false rest)
  end.

Definition replaceWhitespace (r : string) (s : string) : string :=
  replaceRuns r false s.

End Js.

(** The line feed and the blank line of a template literal. *)
Definition LF : string := String (ascii_of_nat 10) EmptyString.
Definition SPACE : ascii := ascii_of_nat 32.

(* ================================================================= *)
(** ** The host: locale and terminal styling

    [toLocaleLowerCase] depends on the locale of the process and [chalk]
    on the colour support of the terminal; both are taken as given. *)

Record Host : Type := mkHost {
  toLocaleLowerCase : string -> string;
  chalk_bold : string -> string;
  chalk_dim : string -> string;
  chalk_gray : string -> string;
  chalk_bold_red : string -> string
}.

(** A host with the root locale on the letters A to Z and a terminal
    without colours. *)
Definition lowerAscii (c : ascii) : ascii :=
  let n := nat_of_ascii c in
  if (Nat.leb 65 n && Nat.leb n 90)%bool then ascii_of_nat (n + 32) else c.

Fixpoint lowerString (s : string) : string :=
  match s with
  | EmptyString => EmptyString
  | String c r => String (lowerAscii c) (lowerString r)
  end.

Definition plainHost : Host :=
  {| toLocaleLowerCase := lowerString;
     chalk_bold := fun s => s;
     chalk_dim := fun s => s;
     chalk_gray := fun s => s;
     chalk_bold_red := fun s => s |}.

(* ================================================================= *)
(** ** utils.ts *)

Section Utils.

Variable host : Host.

(** [decapitalizeFirstLetter] *)
Definition decapitalizeFirstLetter (str : string) : string :=
  toLocaleLowerCase host (Js.charAt0 str) +++ Js.slice1 str.

(** [pluralize] *)
Definition pluralize (count : Z) (singular : string) (plural : option string)
  : string :=
  if count =? 1 then singular
  else
    match plural with
    | Some p => if Js.truthy p then p else singular +++ "s"
    | None => singular +++ "s"
    end.

(** The state of the loop of [wrapText]: the finished lines and the
    line being filled. *)
Definition wrapStep (maxWidth : Z) (st : list string * string) (word : string)
  : list string * string :=
  let '(lines, currentLine) := st in
  let spaceNeeded := if Js.len currentLine >? 0 then 1 else 0 in
  let wouldExceedWidth :=
    Js.len currentLine + Js.len word + spaceNeeded >? maxWidth in
  if wouldExceedWidth then
    if Js.len currentLine >? 0 then (lines ++ [currentLine], word)
    else (lines ++ [word], currentLine)
  else
    (lines,
     currentLine +++ (if Js.len currentLine >? 0 then " " else "") +++ word).

(** The array [lines] of [wrapText] when it is joined. *)
Definition wrapLines (text : string) (maxWidth : Z) : list string :=
  let words := Js.split SPACE text in
  let '(lines, currentLine) := fold_left (wrapStep maxWidth) words ([], "") in
  if Js.len currentLine >? 0 then lines ++ [currentLine] else lines.

(** [wrapText] *)
Definition wrapText (text : string) (maxWidth : Z) : string :=
  Js.join LF (wrapLines text maxWidth).

(** [wrapText] with its default width. *)
Definition wrapText80 (text : string) : string := wrapText text 80.

(** The object that [categorizeTokenCount] returns; a field that a
    branch leaves out is [None].  The emoji are written in UTF-8. *)
Record TokenCategory : Type := mkTokenCategory {
  emoji : option string;
  label : string;
  tc_description : option string;
  needsConfirmation : option bool
}.

(** The branches of [categorizeTokenCount], in the order of the code. *)
Inductive TokenTier : Type :=
| TierFresh | TierVibing | TierSpicy | TierWoah | TierUnit.

Definition tokenTier (tokenCount : Z) : TokenTier :=
  if tokenCount <? 5000 then TierFresh
  else if tokenCount <? 15000 then TierVibing
  else if tokenCount <? 50000 then TierSpicy
  else if tokenCount <? 100000 then TierWoah
  else TierUnit.

Definition tierCategory (t : TokenTier) : TokenCategory :=
  match t with
  | TierFresh =>
      {| emoji := Some "🟢";
         label := "looking fresh " +++ chalk_dim host "(instant response)";
         tc_description := None;
         needsConfirmation := None |}
  | TierVibing =>
      {| emoji := Some "🟡";
         label := "still vibing " +++ chalk_dim host "(1-2 seconds)";
         tc_description := None;
         needsConfirmation := None |}
  | TierSpicy =>
      {| emoji := Some "🟠";
         label := "getting spicy " +++ chalk_dim host "(3-5 seconds)";
         tc_description := None;
         needsConfirmation := None |}
  | TierWoah =>
      {| emoji := Some "🔴";
         label := "woah there territory "
                  +++ chalk_dim host "(may hit rate limits)";
         tc_description :=
           Some "This will take 10+ seconds and cost significantly more.";
         needsConfirmation := Some true |}
  | TierUnit =>
      {| emoji := None;
         label := chalk_bold_red host "an absolute unit 💀";
         tc_description :=
           Some "This exceeds most API limits and will be very expensive.";
         needsConfirmation := Some true |}
  end.

(** [categorizeTokenCount] *)
Definition categorizeTokenCount (tokenCount : Z) : TokenCategory :=
  tierCategory (tokenTier tokenCount).

(** [category.needsConfirmation] as a condition: a missing field is
    falsy. *)
Definition asksConfirmation (c : TokenCategory) : bool :=
  match needsConfirmation c with
  | Some b => b
  | None => false
  end.

(** The rank of a tier in the order of rising risk. *)
Definition tierRank (t : TokenTier) : Z :=
  match t with
  | TierFresh => 0
  | TierVibing => 1
  | TierSpicy => 2
  | TierWoah => 3
  | TierUnit => 4
  end.

(** A proposed commit of the response schema. *)
Record CommitProposal : Type := mkCommit {
  type : string;
  scope : option string;
  description : string;
  breaking : bool;
  body : option string;
  footers : option (list string);
  files : list string
}.

Record CommitMessages : Type := mkMessages {
  commitMessage : string;
  displayMessage : string
}.

(** [commit.scope?.length] as a condition. *)
Definition hasLength (o : option string) : bool :=
  match o with
  | Some s => Js.truthy s
  | None => false
  end.

(** The [prefix] of the conventional format before the redundancy
    check. *)
Definition conventionalPrefix (commit : CommitProposal) : string :=
  type commit
  +++ (match scope commit with
       | Some s => if Js.truthy s then "(" +++ s +++ ")" else ""
       | None => ""
       end)
  +++ (if breaking commit then "!" else "").

(** [buildCommitMessages] *)
Definition buildCommitMessages (commit : CommitProposal)
    (jiraTicketId : option string) : CommitMessages :=
  let description := decapitalizeFirstLetter (description commit) in
  if hasLength jiraTicketId then
    let ticket := match jiraTicketId with Some t => t | None => "" end in
    let jiraType := type commit +++ (if breaking commit then "!" else "") in
    let jiraDescription := Js.replaceWhitespace "-" description in
    let fullJiraMessage :=
      ticket +++ "-" +++ jiraType +++ "-" +++ jiraDescription in
    {| commitMessage := fullJiraMessage; displayMessage := fullJiraMessage |}
  else
    let prefix0 := conventionalPrefix commit in
    let prefix := if Js.startsWith description prefix0 then "" else prefix0 in
    {| displayMessage :=
         (if Js.truthy prefix then chalk_bold host (prefix +++ ": ") else "")
         +++ description;
       commitMessage :=
         (if Js.truthy prefix then prefix +++ ": " else "") +++ description |}.

End Utils.

(** [extractJiraTicketId]: the first match of [[A-Z]{2,}-\d+].  A match
    that starts at a letter takes the whole run of capitals from there
    (the hyphen that must follow is no capital), then the hyphen, then the
    whole run of digits. *)
Definition isUpper (c : ascii) : bool :=
  let n := nat_of_ascii c in (Nat.leb 65 n && Nat.leb n 90)%bool.

Definition isDigit (c : ascii) : bool :=
  let n := nat_of_ascii c in (Nat.leb 48 n && Nat.leb n 57)%bool.

Fixpoint takeWhile (p : ascii -> bool) (s : string) : string * string :=
  match s with
  | EmptyString => (EmptyString, EmptyString)
  | String c r =>
      if p c then let '(a, b) := takeWhile p r in (String c a, b)
      else (EmptyString, s)
  end.

Definition matchJiraAt (s : string) : option string :=
  let '(letters, rest) := takeWhile isUpper s in
  if (2 <=? Js.len letters) then
    match rest with
    | String c rest' =>
        if Ascii.eqb c "-" then
          let '(digits, _) := takeWhile isDigit rest' in
          if (1 <=? Js.len digits) then Some (letters +++ "-" +++ digits)
          else None
        else None
    | EmptyString => None
    end
  else None.

Fixpoint extractJiraTicketId (branchName : string) : option string :=
  match matchJiraAt branchName with
  | Some m => Some m
  | None =>
      match branchName with
      | EmptyString => None
      | String _ r => extractJiraTicketId r
      end
  end.

(** [detectAndConfigureAIProvider]: the first of the three keys that is
    set and not empty decides; with none the function throws. *)
Inductive Provider : Type := Anthropic | OpenAI | Google.

Record AIProviderConfig : Type := mkAIConfig {
  provider : Provider;
  model : string;
  name : string
}.

Inductive Result (A : Type) : Type :=
| Ok (a : A)
| Throws (message : string).
Arguments Ok {A} a.
Arguments Throws {A} message.

Record ProcessEnv : Type := mkEnv {
  ANTHROPIC_API_KEY : option string;
  OPENAI_API_KEY : option string;
  GOOGLE_GENERATIVE_AI_API_KEY : option string
}.

Definition detectAndConfigureAIProvider (env : ProcessEnv)
    (enableThinking : bool) : Result AIProviderConfig :=
  if hasLength (ANTHROPIC_API_KEY env) then
    Ok {| provider := Anthropic;
          model := "claude-3-5-sonnet-20241022";
          name := "Claude 3.5 Sonnet" |}
  else if hasLength (OPENAI_API_KEY env) then
    Ok {| provider := OpenAI;
          model := if enableThinking then "o1" else "gpt-4o";
          name := if enableThinking then "o1" else "GPT-4o" |}
  else if hasLength (GOOGLE_GENERATIVE_AI_API_KEY env) then
    Ok {| provider := Google;
          model := if enableThinking then "gemini-2.0-flash-001"
                   else "gemini-2.5-flash";
          name := if enableThinking then "Gemini 2.0 Flash (thinking)"
                  else "Gemini 2.5 Flash" |}
  else
    Throws "No AI provider API key found.".

(* ================================================================= *)
(** ** The run: [main]

    The run talks to its collaborators (the version-control system, the
    model provider, the operator at the prompt, the pull-request and push
    helpers).  Their answers are the [World]; the calls made to them, in
    order, are the [trace] of the run.  Spinner, banner and log output
    other than the rendering of a proposal is not part of the trace. *)

Record Options : Type := mkOptions {
  silent : bool;
  yes : bool;
  force : bool;
  unsafe : bool;
  push : bool;
  pr : bool;
  jira : bool;
  thinking : bool;
  history : bool
}.

(** What [main] reads of the result of [git.status]. *)
Record StatusResult : Type := mkStatus {
  isClean : bool;
  conflicted : list string;
  staged : list string
}.

Record DiffSummary : Type := mkDiffSummary {
  ds_files : list string
}.

(** One element of the stream: [response.commits]. *)
Record Response : Type := mkResponse {
  commits : list CommitProposal
}.

(** The element stream: the batches it yields, and whether it throws
    once they are consumed. *)
Record ElementStream : Type := mkStream {
  elements : list Response;
  throwsAtEnd : bool
}.

(** The answers of the collaborators.  The prompt for a proposal and the
    staging and commit that follow it are indexed by the position of the
    proposal among the proposals shown so far in the run. *)
Record World : Type := mkWorld {
  env : ProcessEnv;
  git_checkIsRepo : Result bool;
  git_revparse : Result string;
  git_status : Result StatusResult;
  git_diffSummary : Result DiffSummary;
  git_diff : Result string;
  git_log : Result (list string);
  userInstruction :
    StatusResult -> DiffSummary -> string -> option (list string) -> string;
  countTokens : string -> Z;
  confirmTokens : bool;
  streamObject : Result ElementStream;
  confirmCommit : nat -> bool;
  git_add : nat -> Result unit;
  git_commit : nat -> Result unit;
  handlePullRequest : Result unit;
  handlePush : Result unit
}.

(** The calls of a run.  A call that can throw carries whether it
    succeeded; [EvStreamObject] carries the user prompt, [EvRender] the
    messages logged for a proposal, [EvCommit] the message and the files
    given to [git.commit]. *)
Inductive Event : Type :=
| EvCheckIsRepo
| EvRevparse
| EvStatus (args : list string)
| EvDiffSummary (args : list string)
| EvDiff (args : list string)
| EvLog
| EvConfirmTokens (answer : bool)
| EvStreamObject (prompt : string)
| EvRender (shown : list string)
| EvConfirm (answer : bool)
| EvAdd (files : list string) (ok : bool)
| EvCommit (message : string) (files : list string) (ok : bool)
| EvPullRequest (ok : bool)
| EvPush (ok : bool).

Record RunState : Type := mkRun {
  trace : list Event;
  commitCount : Z;
  shown : nat
}.

(** A step of the run either goes on with a value or ends the process
    with an exit code ([process.exit]). *)
Inductive Step (A : Type) : Type :=
| Next (a : A) (s : RunState)
| Exit (code : Z) (s : RunState).
Arguments Next {A} a s.
Arguments Exit {A} code s.

Definition M (A : Type) : Type := RunState -> Step A.

Definition ret {A} (a : A) : M A := fun s => Next a s.

Definition bind {A B} (m : M A) (k : A -> M B) : M B :=
  fun s =>
    match m s with
    | Next a s' => k a s'
    | Exit code s' => Exit code s'
    end.

Notation "x <- m ;; k" := (bind m (fun x => k))
  (at level 61, m at next level, right associativity).
Notation "m ;;; k" := (bind m (fun _ => k))
  (at level 61, right associativity).

Definition exit {A} (code : Z) : M A := fun s => Exit code s.

Definition emit (e : Event) : M unit :=
  fun s => Next tt {| trace := trace s ++ [e];
                      commitCount := commitCount s;
                      shown := shown s |}.

Definition getCommitCount : M Z := fun s => Next (commitCount s) s.

Definition incrCommitCount : M unit :=
  fun s => Next tt {| trace := trace s;
                      commitCount := commitCount s + 1;
                      shown := shown s |}.

(** The position of the proposal that is prompted for next. *)
Definition nextShown : M nat :=
  fun s => Next (shown s) {| trace := trace s;
                             commitCount := commitCount s;
                             shown := S (shown s) |}.

Fixpoint forEach {A} (xs : list A) (f : A -> M unit) : M unit :=
  match xs with
  | [] => ret tt
  | x :: rest => f x ;;; forEach rest f
  end.

Definition isOk {A} (r : Result A) : bool :=
  match r with Ok _ => true | Throws _ => false end.

Definition nonEmpty {A} (xs : list A) : bool :=
  match xs with [] => false | _ :: _ => true end.

(** [commit.footers?.length] as a condition. *)
Definition hasFooters (o : option (list string)) : bool :=
  match o with Some fs => nonEmpty fs | None => false end.

Definition orEmpty (o : option string) : string :=
  match o with Some s => s | None => "" end.

Definition orNil (o : option (list string)) : list string :=
  match o with Some fs => fs | None => [] end.

(** A count in a template literal. *)
Definition showNat (n : nat) : string :=
  DecimalString.NilEmpty.string_of_uint (Nat.to_uint n).

Definition RULE : string := "━━━".

Section Main.

Variable host : Host.
Variable w : World.
Variable options : Options.
Variable args : list string.

(** The message that is committed for an accepted proposal: the
    variable [message] of the loop. *)
Definition message (commitMessage : string) (commit : CommitProposal)
  : string :=
  let message := commitMessage in
  let message :=
    if hasLength (body commit)
    then message +++ LF +++ LF +++ orEmpty (body commit) else message in
  let message :=
    if hasFooters (footers commit)
    then message +++ LF +++ LF +++ Js.join LF (orNil (footers commit))
    else message in
  message.

(** What is shown of a proposal before the prompt: the [log.message]
    calls of the loop body, in order. *)
Definition renderProposal (commit : CommitProposal) (displayMessage : string)
  : list string :=
  [chalk_gray host RULE; displayMessage]
  ++ (if hasLength (body commit)
      then [chalk_dim host (wrapText80 (orEmpty (body commit)))] else [])
  ++ (if hasFooters (footers commit)
      then [Js.join LF (map wrapText80 (orNil (footers commit)))] else [])
  ++ [chalk_gray host RULE;
      "Applies to these "
      +++ chalk_bold host
            (showNat (List.length (files commit)) +++ " "
             +++ pluralize (Z.of_nat (List.length (files commit))) "file" None)
      +++ ": " +++ chalk_dim host (wrapText80 (Js.join ", " (files commit)))].

(** The body of the inner loop, for one proposal. *)
Definition processCommit (jiraTicketId : option string)
    (commit : CommitProposal) : M unit :=
  let msgs := buildCommitMessages host commit jiraTicketId in
  emit (EvRender (renderProposal commit (displayMessage msgs))) ;;;
  i <- nextShown ;;
  let shouldCommit := confirmCommit w i in
  emit (EvConfirm shouldCommit) ;;;
  if shouldCommit then
    let message := message (commitMessage msgs) commit in
    (match git_add w i with
     | Ok _ => emit (EvAdd (files commit) true)
     | Throws _ => emit (EvAdd (files commit) false) ;;; exit 1
     end) ;;;
    (match git_commit w i with
     | Ok _ => emit (EvCommit message (files commit) true)
     | Throws _ => emit (EvCommit message (files commit) false) ;;; exit 1
     end) ;;;
    incrCommitCount
  else
    ret tt.

(** The [for await] loop over the stream. *)
Definition consumeStream (jiraTicketId : option string)
    (stream : ElementStream) : M unit :=
  forEach (elements stream)
    (fun response =>
       forEach (commits response) (processCommit jiraTicketId)) ;;;
  if throwsAtEnd stream then exit 1 else ret tt.

(** The post-commit stage. *)
Definition postCommit : M unit :=
  commitCount <- getCommitCount ;;
  (if (commitCount >? 0) && negb (force options) && negb (yes options) then
     match handlePullRequest w with
     | Ok _ => emit (EvPullRequest true)
     | Throws _ => emit (EvPullRequest false) ;;; exit 1
     end
   else ret tt) ;;;
  (if push options then
     match handlePush w with
     | Ok _ => emit (EvPush true)
     | Throws _ => emit (EvPush false) ;;; exit 1
     end
   else ret tt).

(** The Jira ticket of the run. *)
Definition findJiraTicket : M (option string) :=
  if jira options then
    emit EvRevparse ;;;
    match git_revparse w with
    | Ok currentBranch => ret (extractJiraTicketId currentBranch)
    | Throws _ => ret None
    end
  else ret None.

(** Status, diff summary and diff, with the checks between them. *)
Definition collectChanges : M (StatusResult * DiffSummary * string) :=
  emit (EvStatus args) ;;;
  match git_status w with
  | Throws _ => exit 1
  | Ok status =>
      if isClean status then exit 0
      else if nonEmpty (conflicted status) then exit 1
      else if nonEmpty args && nonEmpty (staged status) then exit 1
      else
        emit (EvDiffSummary args) ;;;
        match git_diffSummary w with
        | Throws _ => exit 1
        | Ok diffSummary =>
            emit (EvDiff args) ;;;
            match git_diff w with
            | Throws _ => exit 1
            | Ok diff => ret (status, diffSummary, diff)
            end
        end
  end.

(** The commit history, when it is asked for. *)
Definition commitHistory : M (option (list string)) :=
  if history options then
    emit EvLog ;;;
    match git_log w with
    | Ok messages => ret (Some messages)
    | Throws _ => ret None
    end
  else ret None.

(** The token-safety check: a risky prompt is confirmed first, and a
    refusal ends the run with success. *)
Definition checkTokens (prompt : string) : M unit :=
  let actualTokenCount := countTokens w prompt in
  let category := categorizeTokenCount host actualTokenCount in
  if asksConfirmation category && negb (unsafe options) then
    let shouldContinue := confirmTokens w in
    emit (EvConfirmTokens shouldContinue) ;;;
    if shouldContinue then ret tt else exit 0
  else ret tt.

(** [main] up to the opening of the stream: the provider, the
    repository check, the Jira ticket, the changes, the prompt, the
    token check and the model call. *)
Definition analyse : M (option string * ElementStream) :=
  match detectAndConfigureAIProvider (env w) (thinking options) with
  | Throws _ => exit 1
  | Ok aiConfig =>
      emit EvCheckIsRepo ;;;
      match git_checkIsRepo w with
      | Throws _ => exit 1
      | Ok false => exit 1
      | Ok true =>
          jiraTicketId <- findJiraTicket ;;
          changes <- collectChanges ;;
          let '(status, diffSummary, diff) := changes in
          commitHistoryMessages <- commitHistory ;;
          let prompt :=
            userInstruction w status diffSummary diff commitHistoryMessages in
          checkTokens prompt ;;;
          emit (EvStreamObject prompt) ;;;
          match streamObject w with
          | Throws _ => exit 1
          | Ok elementStream => ret (jiraTicketId, elementStream)
          end
      end
  end.

(** The end of [main]: the summary, or exit 0 when nothing was
    committed. *)
Definition finish : M unit :=
  commitCount <- getCommitCount ;;
  if commitCount >? 0 then ret tt else exit 0.

(** [main] *)
Definition main : M unit :=
  opened <- analyse ;;
  let '(jiraTicketId, elementStream) := opened in
  consumeStream jiraTicketId elementStream ;;;
  postCommit ;;;
  finish.

(** A run starts with no commit applied and nothing shown. *)
Definition initial : RunState :=
  {| trace := []; commitCount := 0; shown := 0%nat |}.

Definition run : Step unit := main initial.

End Main.

(** The exit code of the process: that of [process.exit], or 0 when
    [main] returns. *)
Definition exitCode {A} (r : Step A) : Z :=
  match r with
  | Next _ _ => 0
  | Exit code _ => code
  end.

Definition finalState {A} (r : Step A) : RunState :=
  match r with
  | Next _ s => s
  | Exit _ s => s
  end.

(* ================================================================= *)
(** ** Definitions of the specification

    These follow the words of the specification, not the code; the
    theorems compare them with the code. *)

Module Spec.

(** The words of a text: its maximal runs of code units that are not
    whitespace. *)
Definition words (s : string) : list string :=
  filter Js.truthy (Js.splitBy Js.isWhitespace s).

(** The whitespace-normalized text: its words, one space between
    them. *)
Definition normalizeWhitespace (s : string) : string :=
  Js.join " " (words s).




(** A line is a single word of the text that alone is wider than the
    width. *)
Definition overlongWord (text : string) (maxWidth : Z) (line : string)
  : Prop :=
  In line (Js.split SPACE text) /\ Js.len line > maxWidth.

(** The trailing paragraph of a body: a blank line and the body, when
    there is a body and it is not empty. *)
Definition bodyParagraph (wrap : string -> string) (body : option string)
  : string :=
  match body with
  | Some (String c r) => LF +++ LF +++ wrap (String c r)
  | _ => ""
  end.

(** The trailing paragraph of the footers: a blank line and each footer
    on a line of its own, when there is a footer. *)
Definition footersParagraph (footers : option (list string)) : string :=
  match footers with
  | Some (f :: fs) => LF +++ LF +++ Js.join LF (f :: fs)
  | _ => ""
  end.

(** The persisted message as the specification words it: the body
    wrapped at 80 columns. *)
Definition persistedWrapped (subject : string) (commit : CommitProposal)
  : string :=
  subject +++ bodyParagraph wrapText80 (body commit)
  +++ footersParagraph (footers commit).

(** The persisted message with the body as it was proposed. *)
Definition persistedVerbatim (subject : string) (commit : CommitProposal)
  : string :=
  subject +++ bodyParagraph (fun b => b) (body commit)
  +++ footersParagraph (footers commit).



(** The prefix of the conventional format: [type], [(scope)] when there
    is a scope, [!] when the change is breaking. *)
Definition prefixOf (type : string) (scope : option string) (breaking : bool)
  : string :=
  match scope, breaking with
  | Some (String c r), true => type +++ "(" +++ String c r +++ ")!"
  | Some (String c r), false => type +++ "(" +++ String c r +++ ")"
  | _, true => type +++ "!"
  | _, false => type
  end.

End Spec.

(** The commits created in a trace. *)
Definition isCommitted (e : Event) : bool :=
  match e with
  | EvCommit _ _ true => true
  | _ => false
  end.

Definition commitsCreated (tr : list Event) : list Event :=
  filter isCommitted tr.

(** The calls that change the repository. *)
Definition isMutation (e : Event) : bool :=
  match e with
  | EvAdd _ _ | EvCommit _ _ _ | EvPush _ | EvPullRequest _ => true
  | _ => false
  end.

Definition isDiffQuery (e : Event) : bool :=
  match e with
  | EvDiffSummary _ | EvDiff _ => true
  | _ => false
  end.

(* ================================================================= *)
(** ** Proposals used as examples *)

Definition featureFlags : CommitProposal :=
  {| type := "feat"; scope := None; description := "Feature flags added";
     breaking := false; body := None; footers := None;
     files := ["flags.ts"] |}.

Definition loginFix : CommitProposal :=
  {| type := "fix"; scope := Some "auth";
     description := "Handle  expired tokens";
     breaking := true;
     body := Some "Expired tokens are refreshed before the request is sent.";
     footers := Some ["Refs: 42"; "Reviewed-by: Z"];
     files := ["auth.ts"; "token.ts"] |}.

Definition wideBody : CommitProposal :=
  {| type := "docs"; scope := None; description := "Describe the wrapping";
     breaking := false;
     body := Some "The body of this proposal is one paragraph that runs well past the eightieth column of the page.";
     footers := None;
     files := ["README.md"] |}.

(* ================================================================= *)
(** ** Worlds used as examples *)

Definition noOptions : Options :=
  {| silent := false; yes := false; force := false; unsafe := false;
     push := false; pr := false; jira := false; thinking := false;
     history := false |}.

Definition pushOnly : Options :=
  {| silent := false; yes := false; force := false; unsafe := false;
     push := true; pr := false; jira := false; thinking := false;
     history := false |}.

(** A repository with unstaged changes, a provider key, a small prompt,
    and the given stream, staged files and answers. *)
Definition world (stream : ElementStream) (stagedFiles : list string)
    (confirm : nat -> bool) (commitResult : nat -> Result unit) : World :=
  {| env := {| ANTHROPIC_API_KEY := Some "key"; OPENAI_API_KEY := None;
               GOOGLE_GENERATIVE_AI_API_KEY := None |};
     git_checkIsRepo := Ok true;
     git_revparse := Ok "feature/PROJ-123-fix-login";
     git_status := Ok {| isClean := false; conflicted := [];
                         staged := stagedFiles |};
     git_diffSummary := Ok {| ds_files := ["flags.ts"; "auth.ts"; "token.ts"] |};
     git_diff := Ok "diff --git a/flags.ts b/flags.ts";
     git_log := Ok [];
     userInstruction := fun _ _ diff _ => diff;
     countTokens := fun prompt => Js.len prompt;
     confirmTokens := true;
     streamObject := Ok stream;
     confirmCommit := confirm;
     git_add := fun _ => Ok tt;
     git_commit := commitResult;
     handlePullRequest := Ok tt;
     handlePush := Ok tt |}.

(** Two batches of one proposal each; the first is accepted, the second
    declined. *)
Definition twoBatches : World :=
  world {| elements := [ {| commits := [featureFlags] |};
                         {| commits := [loginFix] |} ];
           throwsAtEnd := false |}
        [] (fun i => Nat.eqb i 0) (fun _ => Ok tt).

(** The same stream, every proposal accepted, and the first commit
    fails. *)
Definition commitFails : World :=
  world {| elements := [ {| commits := [featureFlags] |};
                         {| commits := [loginFix] |} ];
           throwsAtEnd := false |}
        [] (fun _ => true)
        (fun i => if Nat.eqb i 0 then Throws "nothing to commit" else Ok tt).

(** Staged files in the working tree. *)
Definition stagedTree : World :=
  world {| elements := [ {| commits := [featureFlags] |} ];
           throwsAtEnd := false |}
        ["flags.ts"] (fun _ => true) (fun _ => Ok tt).

(** A stream that proposes nothing. *)
Definition nothingProposed : World :=
  world {| elements := []; throwsAtEnd := false |}
        [] (fun _ => true) (fun _ => Ok tt).

(* ================================================================= *)
(** ** Invariants of the loops and of the run *)

(** The words that the loop of [wrapText] holds: those of the finished
    lines, then those of the line being filled. *)
Definition heldWords (st : list string * string) : list string :=
  concat (map Spec.words (fst st)) ++ Spec.words (snd st).

(** The lines that the loop of [wrapText] holds: the finished lines,
    then the line being filled when it is not empty. *)
Definition heldLines (st : list string * string) : list string :=
  fst st ++ (if Js.truthy (snd st) then [snd st] else []).

(** A line fits when it is no wider than the width, or is one word of
    the text that alone is wider. *)
Definition fits (text : string) (maxWidth : Z) (line : string) : Prop :=
  Js.len line <= maxWidth \/ Spec.overlongWord text maxWidth line.

Definition wrapInvariant (text : string) (maxWidth : Z)
    (st : list string * string) : Prop :=
  (forall line, In line (fst st) -> fits text maxWidth line)
  /\ (snd st = "" \/ fits text maxWidth (snd st)).

(** The state after a proposal: the events it added, the counter, and
    one proposal more shown. *)
Definition after (s : RunState) (events : list Event) (applied : Z) : RunState :=
  {| trace := trace s ++ events;
     commitCount := commitCount s + applied;
     shown := S (shown s) |}.

(** [m] keeps [P]: from a state with [P], the state in which [m] goes
    on or exits has [P]. *)
Definition preserves (P : RunState -> Prop) {A} (m : M A) : Prop :=
  forall s, P s -> P (finalState (m s)).



(** The events of a proposal that is accepted and then fails. *)
Definition failureEvents (host : Host) (w : World)
    (jiraTicketId : option string) (commit : CommitProposal) (i : nat)
  : list Event :=
  let msgs := buildCommitMessages host commit jiraTicketId in
  [EvRender (renderProposal host commit (displayMessage msgs));
   EvConfirm true]
  ++ (if isOk (git_add w i)
      then [EvAdd (files commit) true;
            EvCommit (message (commitMessage msgs) commit) (files commit) false]
      else [EvAdd (files commit) false]).

Definition isPostCommit (e : Event) : bool :=
  match e with
  | EvPullRequest _ | EvPush _ => true
  | _ => false
  end.

(** The pull-request flow is in the trace only with a commit applied and
    without force-accept; the push only when it was asked for. *)
Definition PostGated (options : Options) (s : RunState) : Prop :=
  (forall ok, In (EvPullRequest ok) (trace s) ->
              0 < commitCount s /\ force options = false /\ yes options = false)
  /\ (forall ok, In (EvPush ok) (trace s) -> push options = true).

(* ================================================================= *)
(** ** The base branch

    [getBaseBranch] asks the repository for [origin/main], then for
    [origin/master]; [revparse] is the answer of [git.revparse] to the
    arguments it is given. *)

Fixpoint firstVerified (revparse : list string -> Result string)
    (branches : list string) : option string :=
  match branches with
  | [] => None
  | branch :: rest =>
      match revparse ["--verify"; "origin/" +++ branch] with
      | Ok _ => Some branch
      | Throws _ => firstVerified revparse rest
      end
  end.

(** [getBaseBranch] *)
Definition getBaseBranch (revparse : list string -> Result string)
  : option string :=
  firstVerified revparse ["main"; "master"].

(* ================================================================= *)
(** ** Vocabulary of the further properties *)

(** Every code unit of [s] satisfies [p]. *)
Fixpoint allChars (p : ascii -> bool) (s : string) : bool :=
  match s with
  | EmptyString => true
  | String c r => p c && allChars p r
  end.

(** No code unit of [s] is whitespace. *)
Definition whitespaceFree (s : string) : Prop :=
  forall c, Js.isWhitespace c = true -> ~ In c (list_ascii_of_string s).

(** A Jira ticket: two or more capitals, a hyphen, one or more digits. *)
Definition isTicket (m : string) : Prop :=
  exists letters digits,
    m = letters +++ "-" +++ digits
    /\ 2 <= Js.len letters /\ allChars isUpper letters = true
    /\ 1 <= Js.len digits /\ allChars isDigit digits = true.

(** The first word of a line. *)
Definition firstWord (line : string) : string :=
  hd "" (Js.split SPACE line).

(** Every break between two lines was needed: the first word of the
    later line did not fit at the end of the earlier one. *)
Fixpoint breaksNeeded (maxWidth : Z) (lines : list string) : Prop :=
  match lines with
  | a :: (b :: _) as rest =>
      Js.len a + 1 + Js.len (firstWord b) > maxWidth
      /\ breaksNeeded maxWidth rest
  | _ => True
  end.

(** A proposal with another description. *)
Definition withDescription (description' : string) (c : CommitProposal)
  : CommitProposal :=
  {| type := type c; scope := scope c; description := description';
     breaking := breaking c; body := body c; footers := footers c;
     files := files c |}.

(** The read-only calls and the token prompt, which come before the
    model is called. *)
Definition isQuery (e : Event) : bool :=
  match e with
  | EvCheckIsRepo | EvRevparse | EvStatus _ | EvDiffSummary _ | EvDiff _
  | EvLog | EvConfirmTokens _ => true
  | _ => false
  end.

(** The events of the loop over the proposals and of the post-commit
    stage. *)
Definition isApply (e : Event) : bool :=
  match e with
  | EvRender _ | EvConfirm _ | EvAdd _ _ | EvCommit _ _ _
  | EvPullRequest _ | EvPush _ => true
  | _ => false
  end.

(** A call that threw. *)
Definition isFailure (e : Event) : bool :=
  match e with
  | EvAdd _ false | EvCommit _ _ false | EvPullRequest false | EvPush false =>
      true
  | _ => false
  end.

Definition isRender (e : Event) : bool :=
  match e with EvRender _ => true | _ => false end.

Definition isAccepted (e : Event) : bool :=
  match e with EvConfirm true => true | _ => false end.

Definition isStaging (e : Event) : bool :=
  match e with EvAdd _ _ | EvCommit _ _ _ => true | _ => false end.

Definition isTokenPrompt (e : Event) : bool :=
  match e with EvConfirmTokens _ => true | _ => false end.

Definition isDeclinedTokens (e : Event) : bool :=
  match e with EvConfirmTokens false => true | _ => false end.

(** A trace of queries, none of them a declined token prompt, that ends
    with the call of the model. *)
Fixpoint queriesThenStream (tr : list Event) : bool :=
  match tr with
  | [] => false
  | [EvStreamObject _] => true
  | e :: rest =>
      isQuery e && negb (isDeclinedTokens e) && queriesThenStream rest
  end.

(** What is shown for a proposal. *)
Definition renderEvent (host : Host) (jiraTicketId : option string)
    (commit : CommitProposal) : Event :=
  EvRender
    (renderProposal host commit
       (displayMessage (buildCommitMessages host commit jiraTicketId))).

(** The events that one proposal can add to the trace: declined,
    staging failed, commit failed, committed. *)
Definition proposalEvents (host : Host) (jiraTicketId : option string)
    (commit : CommitProposal) (events : list Event) : Prop :=
  let r := renderEvent host jiraTicketId commit in
  let m :=
    message (commitMessage (buildCommitMessages host commit jiraTicketId))
      commit in
  events = [r; EvConfirm false]
  \/ events = [r; EvConfirm true; EvAdd (files commit) false]
  \/ (exists ok,
        events = [r; EvConfirm true; EvAdd (files commit) true;
                  EvCommit m (files commit) ok]).

(** Every commit in the trace comes right after the staging, with
    success, of the same files, which comes right after an accepted
    prompt. *)
Definition commitsFollowStaging (tr : list Event) : Prop :=
  forall before m f ok later,
    tr = before ++ EvCommit m f ok :: later ->
    exists earlier, before = earlier ++ [EvConfirm true; EvAdd f true].

(** From a state with [I], [m] goes on in a state with [I] or exits
    with a code and a state that satisfy [E]. *)
Definition triple (I : RunState -> Prop) {A} (m : M A)
    (E : Z -> RunState -> Prop) : Prop :=
  forall s, I s ->
    match m s with
    | Next _ s' => I s'
    | Exit code s' => E code s'
    end.

(** Further worlds: a clean tree, a tree with a conflict, a prompt of
    60000 tokens that the operator declines, and an operator who declines
    every proposal. *)
Definition treeWith (status : StatusResult) : World :=
  {| env := env twoBatches;
     git_checkIsRepo := Ok true;
     git_revparse := Ok "main";
     git_status := Ok status;
     git_diffSummary := Throws "not asked";
     git_diff := Throws "not asked";
     git_log := Throws "not asked";
     userInstruction := fun _ _ _ _ => "";
     countTokens := fun _ => 0;
     confirmTokens := false;
     streamObject := Throws "not asked";
     confirmCommit := fun _ => true;
     git_add := fun _ => Ok tt;
     git_commit := fun _ => Ok tt;
     handlePullRequest := Ok tt;
     handlePush := Ok tt |}.

Definition cleanTree : World :=
  treeWith {| isClean := true; conflicted := []; staged := [] |}.

Definition conflictedTree : World :=
  treeWith {| isClean := false; conflicted := ["auth.ts"]; staged := [] |}.

Definition hugePrompt : World :=
  {| env := env twoBatches;
     git_checkIsRepo := Ok true;
     git_revparse := Ok "main";
     git_status := git_status twoBatches;
     git_diffSummary := git_diffSummary twoBatches;
     git_diff := git_diff twoBatches;
     git_log := Ok [];
     userInstruction := fun _ _ diff _ => diff;
     countTokens := fun _ => 60000;
     confirmTokens := false;
     streamObject := streamObject twoBatches;
     confirmCommit := fun _ => true;
     git_add := fun _ => Ok tt;
     git_commit := fun _ => Ok tt;
     handlePullRequest := Ok tt;
     handlePush := Ok tt |}.

Definition allDeclined : World :=
  world {| elements := [ {| commits := [featureFlags; loginFix] |} ];
           throwsAtEnd := false |}
        [] (fun _ => false) (fun _ => Ok tt).

(** A stream of one batch that throws when the batch is consumed. *)
Definition brokenStream : World :=
  world {| elements := [ {| commits := [featureFlags] |} ];
           throwsAtEnd := true |}
        [] (fun _ => true) (fun _ => Ok tt).

Definition unsafeOnly : Options :=
  {| silent := false; yes := false; force := false; unsafe := true;
     push := false; pr := false; jira := false; thinking := false;
     history := false |}.

(** Properties of the state of a run that the further theorems follow
    through [main]. *)
Definition NoFailure (s : RunState) : Prop :=
  forallb (fun e => negb (isFailure e)) (trace s) = true.

Definition FailedLast (code : Z) (s : RunState) : Prop :=
  NoFailure s
  \/ (code = 1
      /\ exists before e,
           trace s = before ++ [e] /\ isFailure e = true
           /\ forallb (fun e => negb (isFailure e)) before = true).

Definition StagedFirst (s : RunState) : Prop := commitsFollowStaging (trace s).

Definition Kept (n : nat) (rendered : list Event) (s : RunState) : Prop :=
  shown s = n /\ filter isRender (trace s) = rendered.

Definition Bounded (s : RunState) : Prop :=
  commitCount s <= Z.of_nat (List.length (filter isAccepted (trace s)))
  /\ (List.length (filter isAccepted (trace s))
      <= List.length (filter isRender (trace s)))%nat.

Definition Untouched (s : RunState) : Prop :=
  commitCount s = 0
  /\ forallb (fun e => negb (isStaging e)) (trace s) = true.

Definition isStatusQuery (args : list string) (e : Event) : Prop :=
  e = EvCheckIsRepo \/ e = EvRevparse \/ e = EvStatus args.

Definition Applying (base : list Event) (s : RunState) : Prop :=
  exists applied,
    trace s = base ++ applied /\ forallb isApply applied = true.

Definition Unprompted (s : RunState) : Prop :=
  forallb (fun e => negb (isTokenPrompt e)) (trace s) = true.

(* ================================================================= *)
(** ** The working tree and the status of a path filter

    [main] asks for the status with the path filter, [git.status(args)].
    For that call git lists only the changed files under the given paths,
    and all changed files when no path is given. *)

(** A changed file of the working tree, staged or not. *)
Record TreeFile : Type := mkTreeFile {
  tf_path : string;
  tf_staged : bool
}.

(** A file is under a path when it is that path or lies in that
    directory. *)
Definition underPath (filter file : string) : bool :=
  String.eqb filter file || Js.startsWith file (filter +++ "/").

Definition underPaths (args : list string) (file : string) : bool :=
  match args with
  | [] => true
  | _ :: _ => existsb (fun filter => underPath filter file) args
  end.

(** The answer of [git.status(args)] for a working tree without
    conflicts: clean when no file under the paths is changed, and staged
    the staged files under the paths. *)
Definition statusOfTree (tree : list TreeFile) (args : list string)
  : StatusResult :=
  let listed := filter (fun f => underPaths args (tf_path f)) tree in
  {| isClean := negb (nonEmpty listed);
     conflicted := [];
     staged := map tf_path (filter tf_staged listed) |}.

(** A tree with a file staged outside [src] and a file changed, not
    staged, inside it; and a tree with the staged file alone. *)
Definition stagedOutside : list TreeFile :=
  [ {| tf_path := "README.md"; tf_staged := true |};
    {| tf_path := "src/flags.ts"; tf_staged := false |} ].

Definition stagedOnly : list TreeFile :=
  [ {| tf_path := "README.md"; tf_staged := true |} ].

(** The world of [twoBatches] with the status that git gives for a tree
    and a path filter. *)
Definition worldOfTree (tree : list TreeFile) (args : list string) : World :=
  {| env := env twoBatches;
     git_checkIsRepo := git_checkIsRepo twoBatches;
     git_revparse := git_revparse twoBatches;
     git_status := Ok (statusOfTree tree args);
     git_diffSummary := git_diffSummary twoBatches;
     git_diff := git_diff twoBatches;
     git_log := git_log twoBatches;
     userInstruction := userInstruction twoBatches;
     countTokens := countTokens twoBatches;
     confirmTokens := confirmTokens twoBatches;
     streamObject := streamObject twoBatches;
     confirmCommit := confirmCommit twoBatches;
     git_add := git_add twoBatches;
     git_commit := git_commit twoBatches;
     handlePullRequest := handlePullRequest twoBatches;
     handlePush := handlePush twoBatches |}.

(* ================================================================= *)
(** ** Strings *)

Lemma append_empty_r (s : string) : s +++ "" = s.
Proof. induction s as [|c s IH]; simpl; [reflexivity | now rewrite IH]. Qed.

Lemma append_assoc (a b c : string) : (a +++ b) +++ c = a +++ b +++ c.
Proof. induction a as [|x a IH]; simpl; [reflexivity | now rewrite IH]. Qed.

Lemma len_append (a b : string) : Js.len (a +++ b) = Js.len a + Js.len b.
Proof.
  unfold Js.len. induction a as [|x a IH]; simpl String.length.
  - reflexivity.
  - simpl String.append. simpl String.length. lia.
Qed.

Lemma len_nonneg (s : string) : 0 <= Js.len s.
Proof. unfold Js.len. lia. Qed.

Lemma len_pos_truthy (s : string) : (Js.len s >? 0) = Js.truthy s.
Proof.
  destruct s as [|c s]; [reflexivity|].
  unfold Js.len. simpl String.length. simpl Js.truthy.
  apply Z.gtb_lt. lia.
Qed.

Lemma startsWith_append (p r : string) : Js.startsWith (p +++ r) p = true.
Proof.
  induction p as [|c p IH]; simpl; [reflexivity|].
  now rewrite Ascii.eqb_refl.
Qed.

Lemma startsWith_spec (s p : string) :
  Js.startsWith s p = true <-> exists r, s = p +++ r.
Proof.
  split.
  - revert s. induction p as [|b p IH]; intros s H.
    + exists s. reflexivity.
    + destruct s as [|a s]; simpl in H; [discriminate|].
      destruct (Ascii.eqb a b) eqn:E; [|discriminate].
      apply Ascii.eqb_eq in E. subst b.
      destruct (IH s H) as [r Hr]. exists r. simpl. now rewrite <- Hr.
  - intros [r ->]. apply startsWith_append.
Qed.

Lemma startsWith_false (s p : string) :
  Js.startsWith s p = false <-> forall r, s <> p +++ r.
Proof.
  split.
  - intros H r E. subst s. rewrite startsWith_append in H. discriminate.
  - intros H. destruct (Js.startsWith s p) eqn:E; [|reflexivity].
    apply startsWith_spec in E. destruct E as [r Hr]. now elim (H r).
Qed.

(* ================================================================= *)
(** ** Token tiers *)

Lemma tokenTier_monotone (a b : Z) :
  a <= b -> tierRank (tokenTier a) <= tierRank (tokenTier b).
Proof.
  intros H. unfold tokenTier.
  repeat match goal with
         | |- context [?x <? ?y] => destruct (Z.ltb_spec x y)
         end; simpl; lia.
Qed.

(** The object returned tells the tier: no two tiers share their
    fields. *)
Lemma tierCategory_injective (host : Host) (t u : TokenTier) :
  tierCategory host t = tierCategory host u -> t = u.
Proof.
  intros H. apply (f_equal emoji) in H.
  destruct t, u; simpl in H; try reflexivity; discriminate.
Qed.

(** C7: the classification of a token count is monotone in risk: a
    count that is not smaller gets a tier that is not lower, and does not
    lose the request for confirmation; below the lowest threshold (5000)
    the flag is never set, at or above the highest (100000) it always
    is. *)
Theorem C7_token_tiers_monotone (host : Host) (a b : Z) :
  a <= b ->
  tierRank (tokenTier a) <= tierRank (tokenTier b)
  /\ categorizeTokenCount host a = tierCategory host (tokenTier a)
  /\ (asksConfirmation (categorizeTokenCount host a) = true ->
      asksConfirmation (categorizeTokenCount host b) = true)
  /\ (a < 5000 ->
      needsConfirmation (categorizeTokenCount host a) = None
      /\ asksConfirmation (categorizeTokenCount host a) = false)
  /\ (100000 <= b ->
      needsConfirmation (categorizeTokenCount host b) = Some true
      /\ asksConfirmation (categorizeTokenCount host b) = true).
Proof.
  intros H. split; [now apply tokenTier_monotone|].
  split; [reflexivity|].
  unfold categorizeTokenCount, asksConfirmation, tokenTier.
  repeat split;
    repeat match goal with
           | |- context [?x <? ?y] => destruct (Z.ltb_spec x y)
           end; simpl; intros; try reflexivity; try discriminate; try lia.
Qed.

Lemma C7_token_tiers_monotone_witness :
  4999 <= 100000
  /\ tierRank (tokenTier 4999) <= tierRank (tokenTier 100000)
  /\ needsConfirmation (categorizeTokenCount plainHost 4999) = None
  /\ needsConfirmation (categorizeTokenCount plainHost 100000) = Some true.
Proof.
  assert (H : 4999 <= 100000) by lia.
  split; [exact H|].
  destruct (C7_token_tiers_monotone plainHost 4999 100000 H)
    as (Hr & _ & _ & Hlo & Hhi).
  split; [exact Hr|].
  split; [apply Hlo; lia | apply Hhi; lia].
Defined.

(* ================================================================= *)
(** ** Words and runs of whitespace *)

Lemma splitBy_cons (p : ascii -> bool) (s : string) :
  exists w ws, Js.splitBy p s = w :: ws.
Proof.
  destruct s as [|c r]; simpl; [now eauto|].
  destruct (p c); [now eauto|].
  destruct (Js.splitBy p r); eauto.
Qed.







(** The result holds no whitespace. *)
Lemma replaceRuns_no_whitespace (b : bool) (s : string) (c : ascii) :
  Js.isWhitespace c = true ->
  ~ In c (list_ascii_of_string (Js.replaceRuns "-" b s)).
Proof.
  intros Hc. revert b. induction s as [|d r IH]; intros b; simpl; [tauto|].
  destruct (Js.isWhitespace d) eqn:D.
  - destruct b; [apply IH|].
    simpl. intros [<- | H]; [discriminate Hc | now apply (IH true)].
  - simpl. intros [<- | H]; [congruence | now apply (IH false)].
Qed.

(* ================================================================= *)
(** ** Commit messages *)

Lemma conventionalPrefix_spec (commit : CommitProposal) :
  conventionalPrefix commit
  = Spec.prefixOf (type commit) (scope commit) (breaking commit).
Proof.
  unfold conventionalPrefix, Spec.prefixOf.
  destruct (scope commit) as [[|c r]|], (breaking commit); simpl;
    rewrite ?append_empty_r, ?append_assoc; reflexivity.
Qed.

(** The message that is committed: the subject line, then the body and
    the footers as they were proposed. *)
Lemma message_verbatim (subject : string) (commit : CommitProposal) :
  message subject commit = Spec.persistedVerbatim subject commit.
Proof.
  unfold message, Spec.persistedVerbatim, Spec.bodyParagraph,
    Spec.footersParagraph, hasLength, hasFooters, orEmpty, orNil.
  destruct (body commit) as [[|c r]|], (footers commit) as [[|f fs]|];
    simpl Js.truthy; simpl nonEmpty; cbv iota;
    rewrite ?append_empty_r, ?append_assoc; reflexivity.
Qed.

(** Without a ticket the subject line is the decapitalized description
    when that starts with the prefix, and the prefix, a colon, a space
    and the decapitalized description otherwise. *)
Lemma buildCommitMessages_conventional (host : Host) (commit : CommitProposal)
    (jiraTicketId : option string) :
  hasLength jiraTicketId = false ->
  let d := decapitalizeFirstLetter host (description commit) in
  let p := conventionalPrefix commit in
  commitMessage (buildCommitMessages host commit jiraTicketId)
  = if Js.startsWith d p then d else p +++ ": " +++ d.
Proof.
  intros H d p. unfold buildCommitMessages. rewrite H. fold d. fold p.
  simpl commitMessage.
  destruct (Js.startsWith d p) eqn:E; [reflexivity|].
  destruct p as [|c p']; [discriminate E|]. simpl Js.truthy. cbv iota.
  now rewrite append_assoc.
Qed.



(** C4, as it is stated, fails: for the type [feat] and the description
    "Feature flags added" the description does not start with the prefix
    [feat], yet the subject line is not in the conventional form
    [feat: feature flags added]. *)
Lemma C4_conventional_form_counterexample :
  (forall rest,
      description featureFlags <> conventionalPrefix featureFlags +++ rest)
  /\ commitMessage (buildCommitMessages plainHost featureFlags None)
     <> conventionalPrefix featureFlags +++ ": "
        +++ decapitalizeFirstLetter plainHost (description featureFlags).
Proof.
  split.
  - intros rest. simpl. discriminate.
  - vm_compute. discriminate.
Qed.

(** C4, amended: without a Jira ticket, with the prefix [type(scope)!]
    (scope and [!] left out when absent) and the description with its
    first character decapitalized: when the decapitalized description is
    the prefix followed by some rest, the subject line is the prefix and
    that rest, the prefix written once; when it is not, the subject line
    is the prefix, a colon, a space and the decapitalized description. *)
Theorem C4_conventional_subject_line (host : Host) (commit : CommitProposal)
    (jiraTicketId : option string) :
  hasLength jiraTicketId = false ->
  let d := decapitalizeFirstLetter host (description commit) in
  let p := Spec.prefixOf (type commit) (scope commit) (breaking commit) in
  let subject := commitMessage (buildCommitMessages host commit jiraTicketId) in
  (forall rest, d = p +++ rest -> subject = p +++ rest)
  /\ ((forall rest, d <> p +++ rest) -> subject = p +++ ": " +++ d).
Proof.
  intros H d p subject.
  pose proof (buildCommitMessages_conventional host commit jiraTicketId H) as E.
  cbv zeta in E. rewrite conventionalPrefix_spec in E.
  fold d p subject in E. split.
  - intros rest Hd. rewrite E.
    rewrite (proj2 (startsWith_spec d p)) by (now exists rest). exact Hd.
  - intros Hd. rewrite E.
    now rewrite (proj2 (startsWith_false d p)) by exact Hd.
Qed.

Lemma C4_conventional_subject_line_witness :
  hasLength None = false
  /\ commitMessage (buildCommitMessages plainHost loginFix None)
     = "fix(auth)!: handle  expired tokens".
Proof.
  assert (H : hasLength None = false) by reflexivity.
  split; [exact H|].
  apply (proj2 (C4_conventional_subject_line plainHost loginFix None H)).
  intros rest. simpl. discriminate.
Defined.

(** C10: without a Jira ticket the prefix is dropped whenever the
    decapitalized description starts with the prefix string, whatever
    follows it: the subject line and the line shown are the decapitalized
    description alone.  For the type [feat] and the description "Feature
    flags added" the subject line is "feature flags added", with no
    [feat: ] marker. *)
Theorem C10_prefix_dropped_on_bare_match (host : Host) :
  (forall commit jiraTicketId,
      hasLength jiraTicketId = false ->
      Js.startsWith (decapitalizeFirstLetter host (description commit))
        (conventionalPrefix commit) = true ->
      let msgs := buildCommitMessages host commit jiraTicketId in
      commitMessage msgs = decapitalizeFirstLetter host (description commit)
      /\ displayMessage msgs
         = decapitalizeFirstLetter host (description commit))
  /\ (toLocaleLowerCase host "F" = "f" ->
      let subject :=
        commitMessage (buildCommitMessages host featureFlags None) in
      subject = "feature flags added"
      /\ Js.startsWith subject "feat: " = false).
Proof.
  assert (G : forall commit jiraTicketId,
      hasLength jiraTicketId = false ->
      Js.startsWith (decapitalizeFirstLetter host (description commit))
        (conventionalPrefix commit) = true ->
      let msgs := buildCommitMessages host commit jiraTicketId in
      commitMessage msgs = decapitalizeFirstLetter host (description commit)
      /\ displayMessage msgs
         = decapitalizeFirstLetter host (description commit)).
  { intros commit jiraTicketId H S msgs. subst msgs.
    unfold buildCommitMessages. rewrite H, S. simpl. now split. }
  split; [exact G|].
  intros HF subject.
  assert (Hd : decapitalizeFirstLetter host (description featureFlags)
               = "feature flags added").
  { unfold decapitalizeFirstLetter. simpl Js.charAt0. now rewrite HF. }
  assert (Hs : subject = "feature flags added").
  { subst subject. rewrite <- Hd. apply (G featureFlags None); [reflexivity|].
    now rewrite Hd. }
  split; [exact Hs | now rewrite Hs].
Qed.

Lemma C10_prefix_dropped_on_bare_match_witness :
  toLocaleLowerCase plainHost "F" = "f"
  /\ commitMessage (buildCommitMessages plainHost featureFlags None)
     = "feature flags added".
Proof.
  assert (H : toLocaleLowerCase plainHost "F" = "f") by reflexivity.
  split; [exact H|].
  exact (proj1 (proj2 (C10_prefix_dropped_on_bare_match plainHost) H)).
Defined.

(* ================================================================= *)
(** ** Word wrapping *)

Lemma splitBy_append_separator (p : ascii -> bool) (a b : string) (c : ascii) :
  p c = true ->
  Js.splitBy p (a +++ String c b) = Js.splitBy p a ++ Js.splitBy p b.
Proof.
  intros Hc. induction a as [|x a IH]; simpl.
  - now rewrite Hc.
  - destruct (p x); [now rewrite IH|].
    rewrite IH. destruct (splitBy_cons p a) as (u & us & ->). reflexivity.
Qed.

Lemma words_append_whitespace (a b : string) (c : ascii) :
  Js.isWhitespace c = true ->
  Spec.words (a +++ String c b) = Spec.words a ++ Spec.words b.
Proof.
  intros Hc. unfold Spec.words.
  now rewrite splitBy_append_separator, filter_app.
Qed.

(** The words of lines joined with a whitespace separator are the words
    of the lines, in order. *)
Lemma words_join (c : ascii) (ls : list string) :
  Js.isWhitespace c = true ->
  Spec.words (Js.join (String c "") ls) = concat (map Spec.words ls).
Proof.
  intros Hc. induction ls as [|l ls IH]; [reflexivity|].
  destruct ls as [|l' ls'].
  - simpl. now rewrite app_nil_r.
  - change (Js.join (String c "") (l :: l' :: ls'))
      with (l +++ String c (Js.join (String c "") (l' :: ls'))).
    rewrite words_append_whitespace by exact Hc.
    now rewrite IH.
Qed.

Lemma join_cons_head (sep : string) (c : ascii) (u : string) (us : list string) :
  Js.join sep (String c u :: us) = String c (Js.join sep (u :: us)).
Proof. destruct us; reflexivity. Qed.

(** Splitting at a code unit and joining with it gives the text back. *)
Lemma join_split (c : ascii) (s : string) :
  Js.join (String c "") (Js.split c s) = s.
Proof.
  unfold Js.split. induction s as [|x s IH]; [reflexivity|].
  simpl Js.splitBy.
  destruct (splitBy_cons (fun d => Ascii.eqb d c) s) as (u & us & E).
  rewrite E in IH |- *.
  destruct (Ascii.eqb x c) eqn:X.
  - apply Ascii.eqb_eq in X. subst x.
    change (Js.join (String c "") ("" :: u :: us))
      with (String c (Js.join (String c "") (u :: us))).
    now rewrite IH.
  - now rewrite join_cons_head, IH.
Qed.

Lemma space_is_whitespace : Js.isWhitespace SPACE = true.
Proof. reflexivity. Qed.

Lemma words_of_split (text : string) :
  concat (map Spec.words (Js.split SPACE text)) = Spec.words text.
Proof.
  rewrite <- (words_join SPACE) by exact space_is_whitespace.
  now rewrite join_split.
Qed.

Lemma concat_map_snoc {A B} (f : A -> list B) (xs : list A) (x : A) :
  concat (map f (xs ++ [x])) = concat (map f xs) ++ f x.
Proof. now rewrite map_app, concat_app; simpl; rewrite app_nil_r. Qed.

Lemma truthy_false_empty (s : string) : Js.truthy s = false -> s = "".
Proof. destruct s; [reflexivity | discriminate]. Qed.

Lemma wrapStep_words (maxWidth : Z) (st : list string * string) (word : string) :
  heldWords (wrapStep maxWidth st word) = heldWords st ++ Spec.words word.
Proof.
  destruct st as [lines cur]. unfold wrapStep, heldWords.
  rewrite !len_pos_truthy.
  destruct (_ >? maxWidth).
  - destruct (Js.truthy cur) eqn:T; simpl fst; simpl snd.
    + now rewrite concat_map_snoc.
    + apply truthy_false_empty in T. subst cur.
      rewrite concat_map_snoc. simpl. now rewrite !app_nil_r.
  - simpl fst. simpl snd. rewrite <- app_assoc. f_equal.
    destruct (Js.truthy cur) eqn:T.
    + change (cur +++ " " +++ word) with (cur +++ String SPACE word).
      now rewrite words_append_whitespace.
    + apply truthy_false_empty in T. now subst cur.
Qed.

Lemma fold_wrapStep_words (maxWidth : Z) (ws : list string)
    (st : list string * string) :
  heldWords (fold_left (wrapStep maxWidth) ws st)
  = heldWords st ++ concat (map Spec.words ws).
Proof.
  revert st. induction ws as [|x ws IH]; intros st; simpl.
  - now rewrite app_nil_r.
  - now rewrite IH, wrapStep_words, <- app_assoc.
Qed.

(** The lines hold the words of the text, in order. *)
Lemma wrapLines_words (text : string) (maxWidth : Z) :
  concat (map Spec.words (wrapLines text maxWidth)) = Spec.words text.
Proof.
  unfold wrapLines.
  pose proof (fold_wrapStep_words maxWidth (Js.split SPACE text) ([], "")) as H.
  destruct (fold_left _ _ _) as [lines cur].
  unfold heldWords in H. simpl in H. rewrite words_of_split in H.
  rewrite len_pos_truthy. destruct (Js.truthy cur) eqn:T.
  - now rewrite concat_map_snoc.
  - apply truthy_false_empty in T. subst cur. simpl in H.
    now rewrite app_nil_r in H.
Qed.

Lemma word_fits (text : string) (maxWidth : Z) (word : string) :
  In word (Js.split SPACE text) -> fits text maxWidth word.
Proof.
  intros H. unfold fits, Spec.overlongWord.
  destruct (Z_le_gt_dec (Js.len word) maxWidth); [now left | right; now split].
Qed.

Lemma wrapStep_invariant (text : string) (maxWidth : Z)
    (st : list string * string) (word : string) :
  In word (Js.split SPACE text) ->
  wrapInvariant text maxWidth st ->
  wrapInvariant text maxWidth (wrapStep maxWidth st word).
Proof.
  intros Hw [Hl Hc]. destruct st as [lines cur]. simpl in Hl, Hc.
  unfold wrapStep, wrapInvariant.
  destruct (_ >? maxWidth) eqn:X.
  - destruct (Js.len cur >? 0) eqn:T; simpl fst; simpl snd; split.
    + intros line Hin. apply in_app_or in Hin. destruct Hin as [Hin | [<- | []]].
      * now apply Hl.
      * destruct Hc as [-> | Hc]; [discriminate T | exact Hc].
    + right. now apply word_fits.
    + intros line Hin. apply in_app_or in Hin. destruct Hin as [Hin | [<- | []]].
      * now apply Hl.
      * now apply word_fits.
    + exact Hc.
  - simpl fst. simpl snd. split; [exact Hl|].
    right. left. rewrite !len_append.
    rewrite Z.gtb_ltb, Z.ltb_ge in X.
    destruct (Js.len cur >? 0); [change (Js.len " ") with 1 | change (Js.len "") with 0]; lia.
Qed.

Lemma fold_wrapStep_invariant (text : string) (maxWidth : Z) (ws : list string)
    (st : list string * string) :
  (forall word, In word ws -> In word (Js.split SPACE text)) ->
  wrapInvariant text maxWidth st ->
  wrapInvariant text maxWidth (fold_left (wrapStep maxWidth) ws st).
Proof.
  revert st. induction ws as [|x ws IH]; intros st Hws Hst; simpl; [exact Hst|].
  apply IH.
  - intros word Hin. apply Hws. now right.
  - apply wrapStep_invariant; [apply Hws; now left | exact Hst].
Qed.

(** No line is wider than the width, but for a single word that alone
    is wider. *)
Lemma wrapLines_width (text : string) (maxWidth : Z) (line : string) :
  In line (wrapLines text maxWidth) -> fits text maxWidth line.
Proof.
  unfold wrapLines.
  pose proof (fold_wrapStep_invariant text maxWidth (Js.split SPACE text)
                ([], "") (fun _ H => H)) as H.
  destruct (fold_left _ _ _) as [lines cur].
  destruct H as [Hl Hc]; [split; [intros ? [] | now left]|].
  simpl in Hl, Hc.
  destruct (Js.len cur >? 0) eqn:T; [|apply Hl].
  intros Hin. apply in_app_or in Hin. destruct Hin as [Hin | [<- | []]].
  - now apply Hl.
  - destruct Hc as [-> | Hc]; [discriminate T | exact Hc].
Qed.

Lemma join_snoc (sep : string) (xs : list string) (x : string) :
  Js.join sep (xs ++ [x])
  = if nonEmpty xs then Js.join sep xs +++ sep +++ x else x.
Proof.
  induction xs as [|y ys IH]; [reflexivity|].
  destruct ys as [|z zs]; [reflexivity|].
  change (Js.join sep ((y :: z :: zs) ++ [x]))
    with (y +++ sep +++ Js.join sep ((z :: zs) ++ [x])).
  rewrite IH. simpl nonEmpty. cbv iota.
  change (Js.join sep (y :: z :: zs)) with (y +++ sep +++ Js.join sep (z :: zs)).
  now rewrite !append_assoc.
Qed.

Lemma wrapLines_heldLines (text : string) (maxWidth : Z) :
  wrapLines text maxWidth
  = heldLines (fold_left (wrapStep maxWidth) (Js.split SPACE text) ([], "")).
Proof.
  unfold wrapLines, heldLines.
  destruct (fold_left _ _ _) as [lines cur]. simpl fst. simpl snd.
  rewrite len_pos_truthy. destruct (Js.truthy cur); [reflexivity|].
  now rewrite app_nil_r.
Qed.

(** A word that is not empty is added to the lines held: after a space
    when there were lines, alone when there were none. *)
Lemma wrapStep_joined (maxWidth : Z) (st : list string * string)
    (word : string) :
  word <> "" ->
  Js.join " " (heldLines (wrapStep maxWidth st word))
  = (if nonEmpty (heldLines st)
     then Js.join " " (heldLines st) +++ " " +++ word else word)
  /\ nonEmpty (heldLines (wrapStep maxWidth st word)) = true.
Proof.
  intros Hw. destruct st as [lines cur]. unfold wrapStep, heldLines.
  assert (Tw : Js.truthy word = true) by (destruct word; [now elim Hw | reflexivity]).
  assert (Hne : forall xs (x : string), nonEmpty (xs ++ [x]) = true)
    by (intros [|? ?] ?; reflexivity).
  rewrite !len_pos_truthy.
  destruct (_ >? maxWidth).
  - destruct (Js.truthy cur) eqn:T; simpl fst; simpl snd.
    + rewrite ?Tw, ?T. split; [apply join_snoc | apply Hne].
    + rewrite ?T, !app_nil_r. split; [apply join_snoc | apply Hne].
  - simpl fst. simpl snd. destruct (Js.truthy cur) eqn:T.
    + assert (Tc : Js.truthy (cur +++ " " +++ word) = true)
        by (destruct cur; [discriminate T | reflexivity]).
      rewrite Tc. split; [|apply Hne].
      rewrite !join_snoc, Hne.
      destruct (nonEmpty lines); now rewrite ?append_assoc.
    + apply truthy_false_empty in T. subst cur. simpl String.append.
      rewrite Tw, app_nil_r. split; [|apply Hne]. apply join_snoc.
Qed.

Lemma fold_wrapStep_joined (maxWidth : Z) (ws : list string)
    (st : list string * string) (done : list string) :
  (forall word, In word ws -> word <> "") ->
  Js.join " " (heldLines st) = Js.join " " done ->
  nonEmpty (heldLines st) = nonEmpty done ->
  Js.join " " (heldLines (fold_left (wrapStep maxWidth) ws st))
  = Js.join " " (done ++ ws).
Proof.
  revert st done. induction ws as [|x ws IH]; intros st done Hws Hj Hn.
  - simpl. now rewrite app_nil_r.
  - simpl fold_left.
    destruct (wrapStep_joined maxWidth st x (Hws x (or_introl eq_refl)))
      as [Hx Hne].
    replace (done ++ x :: ws) with ((done ++ [x]) ++ ws)
      by (now rewrite <- app_assoc).
    apply IH.
    + intros word Hin. apply Hws. now right.
    + rewrite Hx, join_snoc, Hn, Hj. reflexivity.
    + rewrite Hne. now destruct done.
Qed.

(** Wrapping a text whose words are all separated by single spaces and
    joining the lines with single spaces gives the text back. *)
Lemma wrapLines_single_spaced (text : string) (maxWidth : Z) :
  (forall word, In word (Js.split SPACE text) -> word <> "") ->
  Js.join " " (wrapLines text maxWidth) = text.
Proof.
  intros H. rewrite wrapLines_heldLines.
  rewrite (fold_wrapStep_joined maxWidth (Js.split SPACE text) ([], "") [])
    by (reflexivity || exact H).
  apply (join_split SPACE).
Qed.

(** C6, as it is stated, fails: the text "a  b" (two spaces) wrapped at
    80 columns gives one line, "a  b", and joining the lines does not give
    the normalized text "a b". *)
Lemma C6_round_trip_counterexample :
  wrapLines "a  b" 80 = ["a  b"]
  /\ Spec.normalizeWhitespace "a  b" = "a b"
  /\ Js.join " " (wrapLines "a  b" 80) <> Spec.normalizeWhitespace "a  b".
Proof.
  repeat split. vm_compute. discriminate.
Qed.

(** C6, amended: for every text and width, the lines of [wrapText]
    joined with single spaces have the same whitespace-normalized text as
    the input (the same words in the same order), and so has the wrapped
    text itself; when the words of the text are separated by single
    spaces, with no space at either end, the joined lines are the text
    itself; no line is wider than the width unless it is a single word of
    the text that alone is wider. *)
Theorem C6_wrap_round_trip (text : string) (maxWidth : Z) :
  Spec.normalizeWhitespace (Js.join " " (wrapLines text maxWidth))
  = Spec.normalizeWhitespace text
  /\ Spec.normalizeWhitespace (wrapText text maxWidth)
     = Spec.normalizeWhitespace text
  /\ ((forall word, In word (Js.split SPACE text) -> word <> "") ->
      Js.join " " (wrapLines text maxWidth) = text)
  /\ (forall line,
        In line (wrapLines text maxWidth) ->
        Js.len line <= maxWidth \/ Spec.overlongWord text maxWidth line).
Proof.
  unfold Spec.normalizeWhitespace, wrapText. repeat split.
  - change " " with (String SPACE "").
    now rewrite words_join, wrapLines_words by reflexivity.
  - unfold LF. now rewrite words_join, wrapLines_words by reflexivity.
  - apply wrapLines_single_spaced.
  - apply wrapLines_width.
Qed.

Lemma C6_wrap_round_trip_witness :
  wrapLines "ship the first proposal" 10 = ["ship the"; "first"; "proposal"]
  /\ Js.join " " (wrapLines "ship the first proposal" 10)
     = "ship the first proposal".
Proof.
  split; [reflexivity|].
  apply (proj1 (proj2 (proj2 (C6_wrap_round_trip "ship the first proposal" 10)))).
  intros word Hin. vm_compute in Hin.
  repeat (destruct Hin as [<- | Hin]; [discriminate|]). destruct Hin.
Defined.

(* ================================================================= *)
(** ** One proposal *)

Section Proposal.

Variable host : Host.
Variable w : World.
Variable jiraTicketId : option string.
Variable commit : CommitProposal.
Variable s : RunState.

Let msgs := buildCommitMessages host commit jiraTicketId.
Let rendered := EvRender (renderProposal host commit (displayMessage msgs)).
Let persisted := message (commitMessage msgs) commit.

Lemma processCommit_declined :
  confirmCommit w (shown s) = false ->
  processCommit host w jiraTicketId commit s
  = Next tt (after s [rendered; EvConfirm false] 0).
Proof.
  intros H. unfold processCommit, bind, emit, nextShown, ret, after. simpl.
  rewrite H. simpl. now rewrite <- app_assoc, Z.add_0_r.
Qed.

Lemma processCommit_applied :
  confirmCommit w (shown s) = true ->
  isOk (git_add w (shown s)) = true ->
  isOk (git_commit w (shown s)) = true ->
  processCommit host w jiraTicketId commit s
  = Next tt (after s [rendered; EvConfirm true; EvAdd (files commit) true;
                      EvCommit persisted (files commit) true] 1).
Proof.
  intros H Ha Hc.
  unfold processCommit, bind, emit, nextShown, incrCommitCount, ret, after.
  simpl. rewrite H. simpl.
  destruct (git_add w (shown s)); [|discriminate Ha].
  destruct (git_commit w (shown s)); [|discriminate Hc].
  simpl. now rewrite <- !app_assoc.
Qed.

Lemma processCommit_staging_failed :
  confirmCommit w (shown s) = true ->
  isOk (git_add w (shown s)) = false ->
  processCommit host w jiraTicketId commit s
  = Exit 1 (after s [rendered; EvConfirm true; EvAdd (files commit) false] 0).
Proof.
  intros H Ha.
  unfold processCommit, bind, emit, nextShown, incrCommitCount, exit, after.
  simpl. rewrite H. simpl.
  destruct (git_add w (shown s)); [discriminate Ha|].
  simpl. now rewrite <- !app_assoc, Z.add_0_r.
Qed.

Lemma processCommit_commit_failed :
  confirmCommit w (shown s) = true ->
  isOk (git_add w (shown s)) = true ->
  isOk (git_commit w (shown s)) = false ->
  processCommit host w jiraTicketId commit s
  = Exit 1 (after s [rendered; EvConfirm true; EvAdd (files commit) true;
                     EvCommit persisted (files commit) false] 0).
Proof.
  intros H Ha Hc.
  unfold processCommit, bind, emit, nextShown, incrCommitCount, exit, after.
  simpl. rewrite H. simpl.
  destruct (git_add w (shown s)); [|discriminate Ha].
  destruct (git_commit w (shown s)); [discriminate Hc|].
  simpl. now rewrite <- !app_assoc, Z.add_0_r.
Qed.

(** The four ways a proposal can go. *)
Lemma processCommit_cases :
  exists events applied,
    finalState (processCommit host w jiraTicketId commit s)
    = after s events applied
    /\ filter isCommitted events
       = (if applied =? 1 then [EvCommit persisted (files commit) true]
          else [])
    /\ (applied = 0 \/ applied = 1)
    /\ forallb (fun e => negb (isDiffQuery e)) events = true
    /\ forallb (fun e => match e with
                         | EvPullRequest _ | EvPush _ => false
                         | _ => true
                         end) events = true.
Proof.
  destruct (confirmCommit w (shown s)) eqn:H.
  - destruct (isOk (git_add w (shown s))) eqn:Ha.
    + destruct (isOk (git_commit w (shown s))) eqn:Hc.
      * rewrite processCommit_applied by assumption.
        eexists _, 1. repeat split. now right.
      * rewrite processCommit_commit_failed by assumption.
        eexists _, 0. repeat split. now left.
    + rewrite processCommit_staging_failed by assumption.
      eexists _, 0. repeat split. now left.
  - rewrite processCommit_declined by assumption.
    eexists _, 0. repeat split. now left.
Qed.

End Proposal.

(* ================================================================= *)
(** ** Properties kept by every step of a run *)

Section Preserves.

Variable P : RunState -> Prop.

Lemma preserves_ret {A} (a : A) : preserves P (ret a).
Proof. intros s H. exact H. Qed.

Lemma preserves_exit {A} (code : Z) : preserves P (@exit A code).
Proof. intros s H. exact H. Qed.

Lemma preserves_getCommitCount : preserves P getCommitCount.
Proof. intros s H. exact H. Qed.

Lemma preserves_bind {A B} (m : M A) (k : A -> M B) :
  preserves P m -> (forall a, preserves P (k a)) -> preserves P (bind m k).
Proof.
  intros Hm Hk s H. unfold bind. specialize (Hm s H).
  destruct (m s) as [a s' | code s']; simpl in Hm |- *.
  - now apply Hk.
  - exact Hm.
Qed.

Lemma preserves_forEach {A} (xs : list A) (f : A -> M unit) :
  (forall x, preserves P (f x)) -> preserves P (forEach xs f).
Proof.
  intros Hf. induction xs as [|x xs IH]; simpl.
  - apply preserves_ret.
  - apply preserves_bind; [apply Hf | intros _; exact IH].
Qed.

(** [P] is kept by the events that [ok] admits, and does not depend on
    the number of proposals shown. *)
Variable ok : Event -> bool.
Hypothesis P_emit :
  forall e s, ok e = true -> P s ->
    P {| trace := trace s ++ [e]; commitCount := commitCount s;
         shown := shown s |}.

Lemma preserves_emit (e : Event) : ok e = true -> preserves P (emit e).
Proof. intros He s H. now apply P_emit. Qed.

End Preserves.

(** Walks through a computation built from [bind], [match] and the
    primitive steps; [base] closes the steps that depend on the
    property. *)
Ltac walk base :=
  repeat first
    [ base
    | apply preserves_ret
    | apply preserves_exit
    | apply preserves_getCommitCount
    | apply preserves_bind; [|intros ?]
    | match goal with
      | |- preserves _ (match ?x with _ => _ end) => destruct x
      end ].

(* ================================================================= *)
(** ** The counter counts the commits created *)












(* ================================================================= *)
(** ** A failure to stage or to commit *)

Lemma forEach_app {A} (xs ys : list A) (f : A -> M unit) (s : RunState) :
  forEach (xs ++ ys) f s = (forEach xs f ;;; forEach ys f) s.
Proof.
  revert s. induction xs as [|x xs IH]; intros s; [reflexivity|].
  simpl. unfold bind in *. destruct (f x s) as [a s' | code s'].
  - apply IH.
  - reflexivity.
Qed.

(** The two loops run the proposals of the batches in order. *)
Lemma forEach_batches {A B} (g : A -> list B) (xs : list A) (f : B -> M unit)
    (s : RunState) :
  forEach xs (fun x => forEach (g x) f) s = forEach (concat (map g xs)) f s.
Proof.
  revert s. induction xs as [|x xs IH]; intros s; [reflexivity|].
  simpl. rewrite forEach_app. unfold bind.
  destruct (forEach (g x) f s) as [a s' | code s']; [apply IH | reflexivity].
Qed.

(** C2: when staging or commit creation fails for an accepted proposal,
    the run ends there with exit code 1: the state at the exit is the
    state before the proposal with the events of the failed attempt
    added, so no later proposal of the stream is shown or applied, the
    commits created before are all still there, the counter is as it was,
    and nothing is unstaged or rolled back. *)
Theorem C2_apply_failure_is_fatal (host : Host) (w : World)
    (options : Options) (args : list string) (jiraTicketId : option string)
    (stream : ElementStream) (s0 s1 : RunState)
    (before later : list CommitProposal) (commit : CommitProposal) :
  analyse host w options args initial = Next (jiraTicketId, stream) s0 ->
  concat (map commits (elements stream)) = before ++ commit :: later ->
  forEach before (processCommit host w jiraTicketId) s0 = Next tt s1 ->
  confirmCommit w (shown s1) = true ->
  isOk (git_add w (shown s1)) && isOk (git_commit w (shown s1)) = false ->
  let r := run host w options args in
  exitCode r = 1
  /\ finalState r
     = after s1 (failureEvents host w jiraTicketId commit (shown s1)) 0
  /\ commitsCreated (trace (finalState r)) = commitsCreated (trace s1)
  /\ commitCount (finalState r) = commitCount s1
  /\ shown (finalState r) = S (shown s1).
Proof.
  intros Ha Hs Hb Hc Hf r.
  assert (Hp : processCommit host w jiraTicketId commit s1
               = Exit 1 (after s1 (failureEvents host w jiraTicketId commit
                                     (shown s1)) 0)).
  { unfold failureEvents.
    destruct (isOk (git_add w (shown s1))) eqn:Hadd.
    - simpl in Hf. now apply processCommit_commit_failed.
    - now apply processCommit_staging_failed. }
  assert (Hr : r = Exit 1 (after s1 (failureEvents host w jiraTicketId commit
                                       (shown s1)) 0)).
  { subst r. unfold run, main. unfold bind at 1. rewrite Ha.
    unfold consumeStream. unfold bind at 1. unfold bind at 1.
    rewrite forEach_batches, Hs, forEach_app. unfold bind at 1.
    rewrite Hb. simpl forEach. unfold bind at 1. now rewrite Hp. }
  rewrite Hr. simpl exitCode. simpl finalState.
  repeat split.
  - unfold after, commitsCreated, failureEvents. simpl trace.
    rewrite filter_app.
    destruct (isOk (git_add w (shown s1))); simpl; now rewrite app_nil_r.
  - unfold after. simpl. lia.
Qed.

Lemma C2_apply_failure_is_fatal_witness :
  confirmCommit commitFails 0%nat = true
  /\ isOk (git_commit commitFails 0%nat) = false
  /\ exitCode (run plainHost commitFails noOptions []) = 1
  /\ shown (finalState (run plainHost commitFails noOptions [])) = 1%nat.
Proof.
  split; [reflexivity|]. split; [reflexivity|].
  assert (H := fun s0 Ha =>
            C2_apply_failure_is_fatal plainHost commitFails noOptions [] None
              {| elements := [ {| commits := [featureFlags] |};
                               {| commits := [loginFix] |} ];
                 throwsAtEnd := false |}
              s0 s0 [] [loginFix] featureFlags Ha eq_refl eq_refl).
  specialize (H _ eq_refl eq_refl eq_refl).
  destruct H as (He & _ & _ & _ & Hn).
  split; [exact He | exact Hn].
Defined.

(* ================================================================= *)
(** ** The message that is committed *)

(** C5, as it is stated, fails: for a body wider than 80 columns the
    message committed holds the body on one line, as proposed, and is not
    the subject line followed by the wrapped body. *)
Lemma C5_wrapped_body_counterexample :
  let subject := commitMessage (buildCommitMessages plainHost wideBody None) in
  wrapLines (orEmpty (body wideBody)) 80
  = ["The body of this proposal is one paragraph that runs well past the eightieth";
     "column of the page."]
  /\ message subject wideBody
     = subject +++ LF +++ LF +++ orEmpty (body wideBody)
  /\ message subject wideBody <> Spec.persistedWrapped subject wideBody.
Proof.
  repeat split. vm_compute. discriminate.
Qed.

(** C5, amended: for every accepted proposal that is staged and
    committed, the message of the commit is the subject line, then, when
    there is a body that is not empty, a blank line and the body as it was
    proposed, not wrapped, then, when there are footers, a blank line and
    each footer on a line of its own.  The body wrapped greedily at 80
    columns is what is shown before the prompt: no line of it is wider
    than 80 columns but a single word that alone is wider. *)
Theorem C5_persisted_message (host : Host) (w : World)
    (jiraTicketId : option string) (commit : CommitProposal) (s : RunState) :
  confirmCommit w (shown s) = true ->
  isOk (git_add w (shown s)) = true ->
  isOk (git_commit w (shown s)) = true ->
  let msgs := buildCommitMessages host commit jiraTicketId in
  let rendered := renderProposal host commit (displayMessage msgs) in
  processCommit host w jiraTicketId commit s
  = Next tt
      (after s
         [EvRender rendered; EvConfirm true; EvAdd (files commit) true;
          EvCommit (Spec.persistedVerbatim (commitMessage msgs) commit)
            (files commit) true] 1)
  /\ (forall b,
        body commit = Some b -> b <> "" ->
        In (chalk_dim host (Js.join LF (wrapLines b 80))) rendered
        /\ forall line,
             In line (wrapLines b 80) ->
             Js.len line <= 80 \/ Spec.overlongWord b 80 line).
Proof.
  intros H Ha Hc msgs rendered. split.
  - rewrite <- message_verbatim. now apply processCommit_applied.
  - intros b Hb Hne. split; [|apply wrapLines_width].
    subst rendered. unfold renderProposal. rewrite Hb.
    destruct b as [|c b]; [now elim Hne|].
    simpl hasLength. cbv iota. simpl. right. right. now left.
Qed.

Lemma C5_persisted_message_witness :
  confirmCommit twoBatches 0%nat = true
  /\ isOk (git_add twoBatches 0%nat) = true
  /\ isOk (git_commit twoBatches 0%nat) = true
  /\ finalState (processCommit plainHost twoBatches None wideBody initial)
     = after initial
         [EvRender
            (renderProposal plainHost wideBody "docs: describe the wrapping");
          EvConfirm true; EvAdd ["README.md"] true;
          EvCommit
            ("docs: describe the wrapping" +++ LF +++ LF
             +++ "The body of this proposal is one paragraph that runs well past the eightieth column of the page.")
            ["README.md"] true] 1.
Proof.
  split; [reflexivity|]. split; [reflexivity|]. split; [reflexivity|].
  rewrite (proj1 (C5_persisted_message plainHost twoBatches None wideBody
                    initial eq_refl eq_refl eq_refl)).
  reflexivity.
Defined.

(* ================================================================= *)
(** ** Staged files and explicit paths *)

(** C8, as it is stated, fails: the status is asked for with the path
    filter.  With a file staged outside the paths given and a file changed
    inside them, the status lists no staged file and the run goes on to
    the diff summary and the diff and ends with exit code 0; with the
    staged file alone, the status is clean and the run ends with exit code
    0 after the status. *)
Lemma C8_staged_outside_paths_counterexample :
  (exists f, In f stagedOutside /\ tf_staged f = true)
  /\ ["src"] <> []
  /\ statusOfTree stagedOutside ["src"]
     = {| isClean := false; conflicted := []; staged := [] |}
  /\ exitCode (run plainHost (worldOfTree stagedOutside ["src"]) noOptions
                 ["src"]) = 0
  /\ In (EvDiffSummary ["src"])
        (trace (finalState
           (run plainHost (worldOfTree stagedOutside ["src"]) noOptions
              ["src"])))
  /\ In (EvDiff ["src"])
        (trace (finalState
           (run plainHost (worldOfTree stagedOutside ["src"]) noOptions
              ["src"])))
  /\ (exists f, In f stagedOnly /\ tf_staged f = true)
  /\ statusOfTree stagedOnly ["src"]
     = {| isClean := true; conflicted := []; staged := [] |}
  /\ run plainHost (worldOfTree stagedOnly ["src"]) noOptions ["src"]
     = Exit 0 {| trace := [EvCheckIsRepo; EvStatus ["src"]];
                 commitCount := 0; shown := 0%nat |}.
Proof.
  split; [exists {| tf_path := "README.md"; tf_staged := true |};
          split; [now left | reflexivity]|].
  split; [discriminate|]. split; [reflexivity|]. split; [reflexivity|].
  split; [vm_compute; tauto|]. split; [vm_compute; tauto|].
  split; [exists {| tf_path := "README.md"; tf_staged := true |};
          split; [now left | reflexivity]|].
  split; reflexivity.
Qed.

(** C8, amended: when the status that git gives for the path filter
    lists staged files, so that the tree is not clean under the filter,
    and explicit paths were given, the run exits with code 1 and neither
    the diff summary nor the diff is asked for. *)
Theorem C8_staged_files_with_paths (host : Host) (w : World)
    (options : Options) (args : list string) (status : StatusResult) :
  args <> [] ->
  git_status w = Ok status ->
  staged status <> [] ->
  isClean status = false ->
  let r := run host w options args in
  exitCode r = 1
  /\ (forall e, In e (trace (finalState r)) -> isDiffQuery e = false)
  /\ (forall e, In e (trace (finalState r)) -> isMutation e = false).
Proof.
  intros Hargs Hstatus Hstaged Hclean r. subst r.
  assert (Hgate : nonEmpty args && nonEmpty (staged status) = true).
  { destruct args; [now elim Hargs|].
    destruct (staged status); [now elim Hstaged | reflexivity]. }
  unfold run, main, analyse, findJiraTicket, collectChanges.
  rewrite Hstatus.
  destruct (detectAndConfigureAIProvider (env w) (thinking options));
    [|simpl; repeat split; intros e []].
  destruct (git_checkIsRepo w) as [[|]|];
    try (simpl; repeat split; intros e [<- | []]; reflexivity).
  unfold bind, emit, ret, exit. simpl.
  rewrite Hclean, Hgate.
  destruct (jira options); [destruct (git_revparse w)|];
    destruct (nonEmpty (conflicted status)); simpl;
    repeat split; intros e Hin;
    repeat (destruct Hin as [<- | Hin]; [reflexivity|]); destruct Hin.
Qed.

Lemma C8_staged_files_with_paths_witness :
  ["src"] <> []
  /\ exitCode (run plainHost stagedTree noOptions ["src"]) = 1.
Proof.
  assert (H : ["src"] <> []) by discriminate.
  split; [exact H|].
  refine (proj1 (C8_staged_files_with_paths plainHost stagedTree noOptions
                   ["src"] _ H eq_refl _ eq_refl)).
  simpl. discriminate.
Defined.

(** In the status of a tree the staged files are files under the paths,
    and a status that lists one is not clean. *)
Lemma statusOfTree_staged (tree : list TreeFile) (args : list string)
    (file : string) :
  In file (staged (statusOfTree tree args)) ->
  isClean (statusOfTree tree args) = false
  /\ underPaths args file = true
  /\ In {| tf_path := file; tf_staged := true |} tree.
Proof.
  unfold statusOfTree. simpl. intros H.
  apply in_map_iff in H. destruct H as ([p st] & E & H). simpl in E. subst p.
  apply filter_In in H. destruct H as [H S]. simpl in S. subst st.
  pose proof H as H'. apply filter_In in H'. destruct H' as [Ht Hu].
  repeat split; [|exact Hu|exact Ht].
  destruct (filter _ tree); [destruct H | reflexivity].
Qed.

(* ================================================================= *)
(** ** The post-commit stage *)

Lemma PostGated_grow (options : Options) (s : RunState) (events : list Event)
    (count : Z) (n : nat) :
  forallb (fun e => negb (isPostCommit e)) events = true ->
  commitCount s <= count ->
  PostGated options s ->
  PostGated options
    {| trace := trace s ++ events; commitCount := count; shown := n |}.
Proof.
  intros He Hc [Hpr Hpush]. rewrite forallb_forall in He.
  split; intros ok Hin; simpl in *; apply in_app_or in Hin;
    destruct Hin as [Hin | Hin].
  - destruct (Hpr ok Hin) as (H1 & H2 & H3). repeat split; [lia | assumption ..].
  - specialize (He _ Hin). discriminate He.
  - now apply (Hpush ok).
  - specialize (He _ Hin). discriminate He.
Qed.

Lemma PostGated_emit (options : Options) (e : Event) (s : RunState) :
  negb (isPostCommit e) = true -> PostGated options s ->
  PostGated options
    {| trace := trace s ++ [e]; commitCount := commitCount s;
       shown := shown s |}.
Proof.
  intros He H. apply PostGated_grow; [simpl; now rewrite He | lia | exact H].
Qed.

Lemma PostGated_processCommit (host : Host) (w : World) (options : Options)
    (jiraTicketId : option string) (commit : CommitProposal) :
  preserves (PostGated options) (processCommit host w jiraTicketId commit).
Proof.
  intros s H.
  destruct (processCommit_cases host w jiraTicketId commit s)
    as (events & applied & -> & _ & Ha & _ & Hp).
  unfold after. apply PostGated_grow; [|lia|exact H].
  rewrite forallb_forall in Hp |- *. intros e Hin. specialize (Hp e Hin).
  destruct e; try reflexivity; discriminate Hp.
Qed.

Lemma PostGated_pullRequest (options : Options) (ok : bool) (s : RunState) :
  (commitCount s >? 0) && negb (force options) && negb (yes options) = true ->
  PostGated options s ->
  PostGated options
    {| trace := trace s ++ [EvPullRequest ok]; commitCount := commitCount s;
       shown := shown s |}.
Proof.
  intros G [Hpr Hpush].
  apply andb_prop in G. destruct G as [G Hy]. apply andb_prop in G.
  destruct G as [Hc Hf]. apply Z.gtb_lt in Hc.
  apply negb_true_iff in Hf. apply negb_true_iff in Hy.
  split; intros ok' Hin; simpl in *; apply in_app_or in Hin;
    destruct Hin as [Hin | [Hin | []]].
  - now apply (Hpr ok').
  - now repeat split.
  - now apply (Hpush ok').
  - discriminate Hin.
Qed.

Lemma PostGated_push (options : Options) (ok : bool) (s : RunState) :
  push options = true ->
  PostGated options s ->
  PostGated options
    {| trace := trace s ++ [EvPush ok]; commitCount := commitCount s;
       shown := shown s |}.
Proof.
  intros Hp [Hpr Hpush].
  split; intros ok' Hin; simpl in *; apply in_app_or in Hin;
    destruct Hin as [Hin | [Hin | []]].
  - now apply (Hpr ok').
  - discriminate Hin.
  - now apply (Hpush ok').
  - exact Hp.
Qed.

Lemma PostGated_postCommit (w : World) (options : Options) :
  preserves (PostGated options) (postCommit w options).
Proof.
  intros s H. unfold postCommit, bind, getCommitCount, emit, ret, exit.
  destruct ((commitCount s >? 0) && negb (force options) && negb (yes options))
    eqn:G.
  - pose proof (PostGated_pullRequest options true s G H) as Ht.
    pose proof (PostGated_pullRequest options false s G H) as Hf.
    destruct (handlePullRequest w); simpl; [|exact Hf].
    destruct (push options) eqn:Hp; [|exact Ht].
    destruct (handlePush w); simpl;
      apply (PostGated_push options _ _ Hp Ht).
  - destruct (push options) eqn:Hp; [|exact H].
    destruct (handlePush w); simpl; apply (PostGated_push options _ _ Hp H).
Qed.

Ltac gated_base :=
  idtac;
  match goal with
  | |- preserves (PostGated ?o) (postCommit _ _) => apply PostGated_postCommit
  | |- preserves (PostGated ?o) (processCommit _ _ _ _) =>
      apply PostGated_processCommit
  | |- preserves (PostGated ?o) (forEach _ _) =>
      apply preserves_forEach; intros ?
  | |- preserves (PostGated ?o) (emit _) =>
      apply (preserves_emit (PostGated o) (fun e => negb (isPostCommit e))
               (PostGated_emit o)); reflexivity
  end.

Lemma PostGated_main (host : Host) (w : World) (options : Options)
    (args : list string) :
  preserves (PostGated options) (main host w options args).
Proof.
  unfold main, analyse, findJiraTicket, collectChanges, commitHistory,
    checkTokens, consumeStream, finish.
  walk gated_base.
Qed.

(** C9, as it is stated, fails: with a stream that proposes nothing and
    the push asked for, no commit is applied and the push is performed. *)
Lemma C9_push_without_commit_counterexample :
  let final := finalState (run plainHost nothingProposed pushOnly []) in
  commitCount final = 0
  /\ commitsCreated (trace final) = []
  /\ In (EvPush true) (trace final).
Proof.
  repeat split. vm_compute. tauto.
Qed.

Lemma postCommit_enters_pull_request (w : World) (options : Options)
    (s : RunState) :
  0 < commitCount s -> force options = false -> yes options = false ->
  In (EvPullRequest (isOk (handlePullRequest w)))
     (trace (finalState (postCommit w options s))).
Proof.
  intros Hc Hf Hy.
  unfold postCommit, bind, getCommitCount, emit, ret, exit.
  rewrite Hf, Hy. rewrite (proj2 (Z.gtb_lt _ _) Hc). simpl.
  destruct (handlePullRequest w), (push options);
    try destruct (handlePush w); simpl;
    repeat (apply in_or_app; first [now right; left | left]).
Qed.

Lemma postCommit_performs_push (w : World) (options : Options)
    (s : RunState) :
  push options = true ->
  (0 < commitCount s -> force options = false -> yes options = false ->
   isOk (handlePullRequest w) = true) ->
  In (EvPush (isOk (handlePush w)))
     (trace (finalState (postCommit w options s))).
Proof.
  intros Hp Hpr.
  unfold postCommit, bind, getCommitCount, emit, ret, exit. rewrite Hp.
  destruct ((commitCount s >? 0) && negb (force options)
            && negb (yes options)) eqn:G.
  - apply andb_prop in G. destruct G as [G Hy]. apply andb_prop in G.
    destruct G as [Hc Hf]. apply Z.gtb_lt in Hc.
    apply negb_true_iff in Hf. apply negb_true_iff in Hy.
    specialize (Hpr Hc Hf Hy).
    destruct (handlePullRequest w); [|discriminate Hpr].
    destruct (handlePush w); simpl; apply in_or_app; right; now left.
  - destruct (handlePush w); simpl; apply in_or_app; right; now left.
Qed.

Lemma postCommit_keeps_count (w : World) (options : Options) (s : RunState) :
  commitCount (finalState (postCommit w options s)) = commitCount s.
Proof.
  unfold postCommit, bind, getCommitCount, emit, ret, exit.
  destruct ((commitCount s >? 0) && negb (force options)
            && negb (yes options));
    [destruct (handlePullRequest w)|]; simpl;
    try reflexivity;
    (destruct (push options); [destruct (handlePush w)|]; reflexivity).
Qed.

(** A run whose stream was opened and consumed to its end without a
    fatal failure ends in the state in which the post-commit stage
    ends. *)
Lemma run_reaches_post_commit (host : Host) (w : World) (options : Options)
    (args : list string) (jiraTicketId : option string)
    (stream : ElementStream) (s0 s1 : RunState) :
  analyse host w options args initial = Next (jiraTicketId, stream) s0 ->
  forEach (concat (map commits (elements stream)))
    (processCommit host w jiraTicketId) s0 = Next tt s1 ->
  throwsAtEnd stream = false ->
  finalState (run host w options args)
  = finalState (postCommit w options s1).
Proof.
  intros Ha Hl Ht. unfold run, main. unfold bind at 1. rewrite Ha.
  unfold consumeStream. unfold bind at 1. unfold bind at 1.
  rewrite forEach_batches, Hl, Ht. unfold ret. unfold bind at 1.
  destruct (postCommit w options s1) as [u s2 | code s2]; [|reflexivity].
  unfold finish, bind, getCommitCount, ret, exit.
  destruct (commitCount s2 >? 0); reflexivity.
Qed.

(** C9, amended: in every run the pull-request flow is entered only if
    at least one commit was applied and the run was not configured for
    force-accept, and a push is performed only if it was asked for.  When
    the run reaches the post-commit stage, that is, when the stream was
    opened and consumed to its end without a fatal failure, the run enters
    the pull-request flow whenever a commit was applied without
    force-accept, and performs the push whenever it was asked for and the
    pull-request flow did not fail, whatever the number of commits
    applied. *)
Theorem C9_post_commit_stage (host : Host) (w : World) (options : Options)
    (args : list string) :
  let final := finalState (run host w options args) in
  (forall ok, In (EvPullRequest ok) (trace final) ->
              0 < commitCount final
              /\ force options = false /\ yes options = false)
  /\ (forall ok, In (EvPush ok) (trace final) -> push options = true)
  /\ (forall jiraTicketId stream s0 s1,
        analyse host w options args initial
        = Next (jiraTicketId, stream) s0 ->
        forEach (concat (map commits (elements stream)))
          (processCommit host w jiraTicketId) s0 = Next tt s1 ->
        throwsAtEnd stream = false ->
        commitCount final = commitCount s1
        /\ (0 < commitCount final ->
            force options = false -> yes options = false ->
            In (EvPullRequest (isOk (handlePullRequest w))) (trace final))
        /\ (push options = true ->
            (0 < commitCount final ->
             force options = false -> yes options = false ->
             isOk (handlePullRequest w) = true) ->
            In (EvPush (isOk (handlePush w))) (trace final))).
Proof.
  intros final.
  assert (G : PostGated options final).
  { apply (PostGated_main host w options args initial).
    split; intros ok []. }
  destruct G as [Gpr Gpush].
  split; [exact Gpr|]. split; [exact Gpush|].
  intros jiraTicketId stream s0 s1 Ha Hl Ht.
  assert (E : final = finalState (postCommit w options s1))
    by (exact (run_reaches_post_commit host w options args jiraTicketId
                 stream s0 s1 Ha Hl Ht)).
  assert (Hc : commitCount final = commitCount s1)
    by (rewrite E; apply postCommit_keeps_count).
  split; [exact Hc|]. split.
  - intros H0 Hf Hy. rewrite E. apply postCommit_enters_pull_request;
      [now rewrite <- Hc | exact Hf | exact Hy].
  - intros Hp Hpr. rewrite E. apply postCommit_performs_push; [exact Hp|].
    intros H0. apply Hpr. now rewrite Hc.
Qed.

Lemma C9_post_commit_stage_witness :
  push pushOnly = true
  /\ throwsAtEnd {| elements := []; throwsAtEnd := false |} = false
  /\ commitCount (finalState (run plainHost nothingProposed pushOnly [])) = 0
  /\ In (EvPush true)
        (trace (finalState (run plainHost nothingProposed pushOnly []))).
Proof.
  assert (H : push pushOnly = true) by reflexivity.
  split; [exact H|]. split; [reflexivity|].
  destruct (C9_post_commit_stage plainHost nothingProposed pushOnly [])
    as (_ & _ & G).
  destruct (G None {| elements := []; throwsAtEnd := false |} _ _
              eq_refl eq_refl eq_refl) as (Hc & _ & Hpush).
  split; [exact Hc|].
  apply (Hpush H). intros _ _ _. reflexivity.
Defined.

(* ================================================================= *)
(** ** Further properties of [wrapText] *)

Lemma splitBy_none (p : ascii -> bool) (s : string) :
  (forall c, In c (list_ascii_of_string s) -> p c = false) ->
  Js.splitBy p s = [s].
Proof.
  induction s as [|c r IH]; intros H; [reflexivity|].
  simpl. rewrite (H c) by (now left).
  rewrite IH; [reflexivity|]. intros d Hd. apply H. now right.
Qed.

Lemma not_space (c : ascii) : c <> SPACE -> Ascii.eqb c SPACE = false.
Proof. intros H. now apply Ascii.eqb_neq. Qed.

Lemma wrapLines_one_word (word : string) (maxWidth : Z) :
  Js.split SPACE word = [word] ->
  wrapLines word maxWidth = if Js.truthy word then [word] else
                              if 0 >? maxWidth then [word] else [].
Proof.
  intros H. unfold wrapLines. rewrite H. simpl fold_left. unfold wrapStep.
  change (Js.len "") with 0. change (0 >? 0) with false. cbv iota.
  rewrite Z.add_0_r.
  destruct word as [|c r].
  - change (Js.len "") with 0. destruct (0 >? maxWidth); reflexivity.
  - destruct (Js.len (String c r) >? maxWidth) eqn:E.
    + reflexivity.
    + rewrite len_pos_truthy. reflexivity.
Qed.

(** X1: a text without a space is one word, and [wrapText] returns it
    as it is, whatever the width: a word is never split. *)
Theorem wrapText_word_unsplit (text : string) (maxWidth : Z) :
  ~ In SPACE (list_ascii_of_string text) ->
  wrapText text maxWidth = text.
Proof.
  intros H. unfold wrapText. rewrite wrapLines_one_word.
  - destruct text as [|c r]; [|reflexivity].
    destruct (0 >? maxWidth); reflexivity.
  - apply splitBy_none.
    intros c Hc. apply not_space. intros ->. now apply H.
Qed.

Lemma wrapText_word_unsplit_witness :
  ~ In SPACE (list_ascii_of_string "internationalization")
  /\ wrapText "internationalization" 5 = "internationalization".
Proof.
  assert (H : ~ In SPACE (list_ascii_of_string "internationalization")).
  { simpl. intros Hin.
    repeat (destruct Hin as [Hin | Hin]; [discriminate Hin|]). exact Hin. }
  split; [exact H | exact (wrapText_word_unsplit _ 5 H)].
Defined.

Lemma len_String (c : ascii) (s : string) : Js.len (String c s) = 1 + Js.len s.
Proof. unfold Js.len. simpl String.length. lia. Qed.

Lemma len_join_head (sep x : string) (xs : list string) :
  Js.len x <= Js.len (Js.join sep (x :: xs)).
Proof.
  destruct xs as [|y ys]; [simpl; lia|].
  change (Js.join sep (x :: y :: ys)) with (x +++ sep +++ Js.join sep (y :: ys)).
  rewrite len_append. pose proof (len_nonneg (sep +++ Js.join sep (y :: ys))). lia.
Qed.

Lemma fold_wrapStep_fits (maxWidth : Z) (ws : list string) (cur : string) :
  Js.truthy cur = true ->
  Js.len (Js.join " " (cur :: ws)) <= maxWidth ->
  fold_left (wrapStep maxWidth) ws ([], cur) = ([], Js.join " " (cur :: ws)).
Proof.
  revert cur. induction ws as [|x ws IH]; intros cur T H; [reflexivity|].
  change (Js.join " " (cur :: x :: ws))
    with (cur +++ " " +++ Js.join " " (x :: ws)) in *.
  simpl fold_left. rewrite !len_pos_truthy, T.
  rewrite !len_append in H. change (Js.len " ") with 1 in H.
  pose proof (len_join_head " " x ws) as Hx.
  replace (Js.len cur + Js.len x + 1 >? maxWidth) with false
    by (symmetry; rewrite Z.gtb_ltb; apply Z.ltb_ge; lia).
  rewrite IH.
  - f_equal. destruct ws as [|y ys]; [reflexivity|].
    change (Js.join " " ((cur +++ " " +++ x) :: y :: ys))
      with ((cur +++ " " +++ x) +++ " " +++ Js.join " " (y :: ys)).
    change (Js.join " " (x :: y :: ys))
      with (x +++ " " +++ Js.join " " (y :: ys)).
    now rewrite !append_assoc.
  - destruct cur; [discriminate T | reflexivity].
  - destruct ws as [|y ys].
    + simpl Js.join in *. rewrite !len_append, len_String. lia.
    + change (Js.join " " ((cur +++ " " +++ x) :: y :: ys))
        with ((cur +++ " " +++ x) +++ " " +++ Js.join " " (y :: ys)).
      change (Js.join " " (x :: y :: ys))
        with (x +++ " " +++ Js.join " " (y :: ys)) in H.
      rewrite !len_append in *. change (Js.len " ") with 1 in *. lia.
Qed.

(** X2: a text that is no longer than the width and does not start with
    a space is returned as it is, on one line. *)
Theorem wrapText_fitting_text_unchanged (text : string) (maxWidth : Z) :
  Js.len text <= maxWidth ->
  Js.startsWith text " " = false ->
  wrapText text maxWidth = text.
Proof.
  intros Hlen Hstart. unfold wrapText, wrapLines.
  pose proof (join_split SPACE text) as J.
  destruct text as [|c r].
  - change (Js.len "") with 0 in Hlen. simpl.
    destruct (0 >? maxWidth) eqn:E; [apply Z.gtb_lt in E; lia | reflexivity].
  - assert (Hc : Ascii.eqb c SPACE = false).
    { simpl in Hstart. unfold SPACE.
      destruct (Ascii.eqb c " ") eqn:E; [discriminate Hstart | exact E]. }
    unfold Js.split in *. simpl Js.splitBy in *. rewrite Hc in *.
    destruct (splitBy_cons (fun d => Ascii.eqb d SPACE) r) as (u & us & E).
    rewrite E in *. change (String SPACE "") with " " in J.
    simpl fold_left.
    change (Js.len "") with 0. change (0 >? 0) with false. cbv iota.
    pose proof (len_join_head " " (String c u) us) as Hu. rewrite J in Hu.
    replace (Js.len (String c u) >? maxWidth) with false
      by (symmetry; rewrite Z.gtb_ltb; apply Z.ltb_ge; lia).
    rewrite fold_wrapStep_fits; [|reflexivity|rewrite J; exact Hlen].
    rewrite J. rewrite len_pos_truthy. reflexivity.
Qed.

Lemma wrapText_fitting_text_unchanged_witness :
  Js.len "fix  the login  form " <= 80
  /\ wrapText "fix  the login  form " 80 = "fix  the login  form ".
Proof.
  assert (H : Js.len "fix  the login  form " <= 80) by (vm_compute; discriminate).
  split; [exact H|].
  exact (wrapText_fitting_text_unchanged _ 80 H eq_refl).
Defined.

Lemma fold_wrapStep_truthy (maxWidth : Z) (ws : list string)
    (st : list string * string) :
  0 <= maxWidth ->
  (forall line, In line (fst st) -> Js.truthy line = true) ->
  forall line,
    In line (fst (fold_left (wrapStep maxWidth) ws st)) ->
    Js.truthy line = true.
Proof.
  intros Hw. revert st. induction ws as [|x ws IH]; intros st Hst; [exact Hst|].
  simpl fold_left. apply IH. destruct st as [lines cur]. simpl in Hst.
  unfold wrapStep. destruct (_ >? maxWidth) eqn:X.
  - destruct (Js.len cur >? 0) eqn:T; simpl fst; intros line Hin;
      apply in_app_or in Hin; destruct Hin as [Hin | [<- | []]];
      try (now apply Hst).
    + now rewrite <- len_pos_truthy.
    + rewrite <- len_pos_truthy. apply Z.gtb_lt. apply Z.gtb_lt in X.
      rewrite Z.gtb_ltb in T. apply Z.ltb_ge in T.
      pose proof (len_nonneg cur). lia.
  - exact Hst.
Qed.

(** X3: with a width that is not negative none of the lines that
    [wrapText] collects and joins with line feeds is the empty string. *)
Theorem wrapLines_no_empty_line (text : string) (maxWidth : Z) (line : string) :
  0 <= maxWidth ->
  In line (wrapLines text maxWidth) ->
  line <> "".
Proof.
  intros Hw Hin. unfold wrapLines in Hin.
  pose proof (fold_wrapStep_truthy maxWidth (Js.split SPACE text) ([], "") Hw)
    as H.
  destruct (fold_left _ _ _) as [lines cur]. simpl fst in H.
  assert (T : Js.truthy line = true).
  { destruct (Js.len cur >? 0) eqn:C.
    - apply in_app_or in Hin. destruct Hin as [Hin | [<- | []]].
      + apply H; [intros ? []|exact Hin].
      + now rewrite <- len_pos_truthy.
    - apply H; [intros ? []|exact Hin]. }
  intros ->. discriminate T.
Qed.

Lemma wrapLines_no_empty_line_witness :
  0 <= 3 /\ wrapLines "  a   bb  " 3 = ["a  "; "bb "] /\ "a  " <> "".
Proof.
  assert (H : 0 <= 3) by lia.
  split; [exact H|]. split; [reflexivity|].
  apply (wrapLines_no_empty_line "  a   bb  " 3 "a  " H). now left.
Defined.

Lemma splitBy_pieces (p : ascii -> bool) (s piece : string) (c : ascii) :
  In piece (Js.splitBy p s) -> In c (list_ascii_of_string piece) -> p c = false.
Proof.
  revert piece. induction s as [|x r IH]; intros piece Hin Hc.
  - destruct Hin as [<- | []]. destruct Hc.
  - simpl in Hin. destruct (p x) eqn:X.
    + destruct Hin as [<- | Hin]; [destruct Hc | now apply (IH piece)].
    + destruct (splitBy_cons p r) as (u & us & E). rewrite E in *.
      destruct Hin as [<- | Hin].
      * destruct Hc as [<- | Hc]; [exact X | apply (IH u); [now left | exact Hc]].
      * apply (IH piece); [now right | exact Hc].
Qed.

Lemma firstWord_word (text word : string) :
  In word (Js.split SPACE text) -> firstWord word = word.
Proof.
  intros H. unfold firstWord, Js.split. rewrite splitBy_none; [reflexivity|].
  intros c Hc. exact (splitBy_pieces _ text word c H Hc).
Qed.

Lemma firstWord_append (a b : string) :
  firstWord (a +++ " " +++ b) = firstWord a.
Proof.
  unfold firstWord, Js.split.
  change (a +++ " " +++ b) with (a +++ String SPACE b).
  rewrite splitBy_append_separator by apply Ascii.eqb_refl.
  destruct (splitBy_cons (fun c => Ascii.eqb c SPACE) a) as (u & us & ->).
  reflexivity.
Qed.

Lemma breaksNeeded_snoc (maxWidth : Z) (ls : list string) (b : string) :
  breaksNeeded maxWidth (ls ++ [b])
  <-> breaksNeeded maxWidth ls
      /\ (ls = []
          \/ Js.len (last ls "") + 1 + Js.len (firstWord b) > maxWidth).
Proof.
  induction ls as [|a ls IH].
  - simpl. intuition.
  - destruct ls as [|a' ls'].
    + change (breaksNeeded maxWidth ([a] ++ [b]))
        with (Js.len a + 1 + Js.len (firstWord b) > maxWidth /\ True).
      change (last [a] "") with a. change (breaksNeeded maxWidth [a]) with True.
      split.
      * intros [H _]. split; [exact I | now right].
      * intros [_ [H | H]]; [discriminate H | now split].
    + change (breaksNeeded maxWidth ((a :: a' :: ls') ++ [b]))
        with (Js.len a + 1 + Js.len (firstWord a') > maxWidth
              /\ breaksNeeded maxWidth ((a' :: ls') ++ [b])).
      change (breaksNeeded maxWidth (a :: a' :: ls'))
        with (Js.len a + 1 + Js.len (firstWord a') > maxWidth
              /\ breaksNeeded maxWidth (a' :: ls')).
      change (last (a :: a' :: ls') "") with (last (a' :: ls') "").
      rewrite IH. intuition; discriminate.
Qed.

Lemma wrapStep_breaksNeeded (text : string) (maxWidth : Z)
    (st : list string * string) (word : string) :
  In word (Js.split SPACE text) ->
  breaksNeeded maxWidth (fst st ++ [snd st]) ->
  breaksNeeded maxWidth
    (fst (wrapStep maxWidth st word) ++ [snd (wrapStep maxWidth st word)]).
Proof.
  intros Hw H. destruct st as [lines cur]. simpl fst in H. simpl snd in H.
  pose proof (firstWord_word text word Hw) as Fw.
  pose proof (len_nonneg word) as Nw.
  unfold wrapStep. rewrite !len_pos_truthy.
  destruct (_ >? maxWidth) eqn:X.
  - apply Z.gtb_lt in X. destruct (Js.truthy cur) eqn:T; simpl fst; simpl snd.
    + apply breaksNeeded_snoc. split; [exact H|]. right.
      rewrite last_last, Fw. lia.
    + apply truthy_false_empty in T. subst cur.
      change (Js.len "") with 0 in X.
      apply breaksNeeded_snoc in H. destruct H as [Hl Hlast].
      apply breaksNeeded_snoc. split.
      * apply breaksNeeded_snoc. split; [exact Hl|].
        destruct Hlast as [-> | Hlast]; [now left | right].
        change (firstWord "") with "" in Hlast.
        change (Js.len "") with 0 in Hlast. rewrite Fw. lia.
      * right. rewrite last_last. change (firstWord "") with "".
        change (Js.len "") with 0. lia.
  - simpl fst. simpl snd.
    apply breaksNeeded_snoc in H. destruct H as [Hl Hlast].
    apply breaksNeeded_snoc. split; [exact Hl|].
    destruct Hlast as [-> | Hlast]; [now left | right].
    destruct (Js.truthy cur) eqn:T.
    + now rewrite firstWord_append.
    + apply truthy_false_empty in T. subst cur. simpl String.append.
      change (firstWord "") with "" in Hlast.
      change (Js.len "") with 0 in Hlast. rewrite Fw. lia.
Qed.

Lemma fold_wrapStep_breaksNeeded (text : string) (maxWidth : Z)
    (ws : list string) (st : list string * string) :
  (forall word, In word ws -> In word (Js.split SPACE text)) ->
  breaksNeeded maxWidth (fst st ++ [snd st]) ->
  breaksNeeded maxWidth
    (fst (fold_left (wrapStep maxWidth) ws st)
     ++ [snd (fold_left (wrapStep maxWidth) ws st)]).
Proof.
  revert st. induction ws as [|x ws IH]; intros st Hws Hst; [exact Hst|].
  simpl fold_left. apply IH.
  - intros word Hin. apply Hws. now right.
  - apply (wrapStep_breaksNeeded text); [apply Hws; now left | exact Hst].
Qed.

(** X4: the wrapping is greedy: wherever [wrapText] breaks a line, the
    first word of the next line would not have fitted, after a space, at
    the end of the line before. *)
Theorem wrapLines_breaks_needed (text : string) (maxWidth : Z) :
  breaksNeeded maxWidth (wrapLines text maxWidth).
Proof.
  unfold wrapLines.
  pose proof (fold_wrapStep_breaksNeeded text maxWidth (Js.split SPACE text)
                ([], "") (fun _ H => H) I) as H.
  destruct (fold_left _ _ _) as [lines cur]. simpl fst in H. simpl snd in H.
  destruct (Js.len cur >? 0); [exact H|].
  apply breaksNeeded_snoc in H. exact (proj1 H).
Qed.

(* ================================================================= *)
(** ** Further properties of the token tiers and of the provider *)

(** X5: a confirmation is asked for exactly from 50000 tokens on, and
    exactly then the category has the description that the prompt shows;
    the emoji is missing exactly from 100000 tokens on. *)
Theorem categorizeTokenCount_confirmation_threshold (host : Host)
    (tokenCount : Z) :
  let category := categorizeTokenCount host tokenCount in
  (asksConfirmation category = true <-> 50000 <= tokenCount)
  /\ (tc_description category <> None <-> 50000 <= tokenCount)
  /\ (emoji category = None <-> 100000 <= tokenCount).
Proof.
  unfold categorizeTokenCount, asksConfirmation, tokenTier.
  repeat match goal with
         | |- context [?x <? ?y] => destruct (Z.ltb_spec x y)
         end; simpl; repeat split; intros; try lia; try discriminate;
    try reflexivity; try (exfalso; congruence).
Qed.

(** X6: the provider is found exactly when one of the three keys is set
    and not empty; Anthropic is preferred to OpenAI and OpenAI to Google
    whatever the other keys are; and which provider is chosen does not
    depend on the thinking mode. *)
Theorem detectAndConfigureAIProvider_priority (env : ProcessEnv)
    (enableThinking : bool) :
  let keyA := hasLength (ANTHROPIC_API_KEY env) in
  let keyO := hasLength (OPENAI_API_KEY env) in
  let keyG := hasLength (GOOGLE_GENERATIVE_AI_API_KEY env) in
  let chosen :=
    match detectAndConfigureAIProvider env enableThinking with
    | Ok config => Some (provider config)
    | Throws _ => None
    end in
  chosen
  = (if keyA then Some Anthropic
     else if keyO then Some OpenAI
     else if keyG then Some Google else None)
  /\ (isOk (detectAndConfigureAIProvider env enableThinking) = false
      <-> keyA = false /\ keyO = false /\ keyG = false).
Proof.
  unfold detectAndConfigureAIProvider.
  destruct (hasLength (ANTHROPIC_API_KEY env)),
    (hasLength (OPENAI_API_KEY env)),
    (hasLength (GOOGLE_GENERATIVE_AI_API_KEY env));
    simpl; split; try reflexivity; split; intros; try discriminate;
    try (now repeat split); try (destruct H as (? & ? & ?); discriminate).
Qed.

(** X7: without a plural given, [pluralize] gives the singular for the
    count 1 and for no other count. *)
Theorem pluralize_singular_only_for_one (count : Z) (singular : string) :
  pluralize count singular None = singular <-> count = 1.
Proof.
  unfold pluralize. destruct (Z.eqb_spec count 1) as [E | E].
  - now split.
  - split; [|intros H; now elim E].
    intros H. apply (f_equal Js.len) in H. rewrite len_append in H.
    change (Js.len "s") with 1 in H. lia.
Qed.

(* ================================================================= *)
(** ** The base branch *)

(** [getBaseBranch] answers [main] exactly when [origin/main] is
    verified, [master] exactly when [origin/main] is not and
    [origin/master] is, and nothing exactly when neither is; it never
    answers another branch. *)
Lemma getBaseBranch_prefers_main (revparse : list string -> Result string) :
  let mainOk := isOk (revparse ["--verify"; "origin/main"]) in
  let masterOk := isOk (revparse ["--verify"; "origin/master"]) in
  getBaseBranch revparse
  = if mainOk then Some "main" else if masterOk then Some "master" else None.
Proof.
  unfold getBaseBranch. simpl.
  destruct (revparse ["--verify"; "origin/main"]); [reflexivity|].
  destruct (revparse ["--verify"; "origin/master"]); reflexivity.
Qed.

(* ================================================================= *)
(** ** The Jira ticket of a branch name *)

Lemma takeWhile_spec (p : ascii -> bool) (s : string) :
  s = fst (takeWhile p s) +++ snd (takeWhile p s)
  /\ allChars p (fst (takeWhile p s)) = true
  /\ match snd (takeWhile p s) with
     | EmptyString => True
     | String c _ => p c = false
     end.
Proof.
  induction s as [|c r IH]; [now repeat split|].
  simpl. destruct (p c) eqn:C.
  - destruct (takeWhile p r) as [a b]. simpl in *.
    destruct IH as (E & A & B). repeat split.
    + now rewrite <- E.
    + now rewrite C, A.
    + exact B.
  - simpl. now repeat split.
Qed.

Lemma takeWhile_append (p : ascii -> bool) (a b : string) :
  allChars p a = true ->
  takeWhile p (a +++ b)
  = (a +++ fst (takeWhile p b), snd (takeWhile p b)).
Proof.
  induction a as [|c a IH]; intros H.
  - simpl. now destruct (takeWhile p b).
  - simpl in H. apply andb_prop in H. destruct H as [C A].
    simpl. rewrite C, (IH A). reflexivity.
Qed.

Lemma matchJiraAt_spec (s m : string) :
  matchJiraAt s = Some m -> isTicket m /\ exists rest, s = m +++ rest.
Proof.
  unfold matchJiraAt.
  destruct (takeWhile_spec isUpper s) as (E & A & _).
  destruct (takeWhile isUpper s) as [letters rest]. simpl in E, A.
  destruct (2 <=? Js.len letters) eqn:L; [|discriminate].
  destruct rest as [|c rest']; [discriminate|].
  destruct (Ascii.eqb c "-") eqn:C; [|discriminate].
  apply Ascii.eqb_eq in C. subst c.
  destruct (takeWhile_spec isDigit rest') as (E' & A' & _).
  destruct (takeWhile isDigit rest') as [digits rest'']. simpl in E', A'.
  destruct (1 <=? Js.len digits) eqn:D; [|discriminate].
  intros H. injection H as <-. split.
  - exists letters, digits. apply Z.leb_le in L. apply Z.leb_le in D.
    now repeat split.
  - exists rest''. rewrite E, E'. simpl. now rewrite !append_assoc.
Qed.

(** X8: a ticket that [extractJiraTicketId] finds is part of the branch
    name and has the form of a ticket: two or more capitals, a hyphen,
    one or more digits; so it is never the empty string. *)
Theorem extractJiraTicketId_sound (branchName ticket : string) :
  extractJiraTicketId branchName = Some ticket ->
  isTicket ticket
  /\ (exists before rest, branchName = before +++ ticket +++ rest)
  /\ Js.truthy ticket = true.
Proof.
  intros H.
  assert (G : isTicket ticket
              /\ exists before rest, branchName = before +++ ticket +++ rest).
  { revert H. induction branchName as [|c r IH]; simpl.
    - discriminate.
    - destruct (matchJiraAt (String c r)) eqn:M.
      + intros H. inversion H. subst s. clear H.
        apply matchJiraAt_spec in M. destruct M as [T [rest E]].
        split; [exact T | now exists "", rest].
      + intros H. destruct (IH H) as [T (before & rest & E)].
        split; [exact T|]. exists (String c before), rest. simpl. now rewrite E. }
  destruct G as [T S]. repeat split; [exact T | exact S |].
  destruct T as (letters & digits & -> & L & _).
  destruct letters; [change (Js.len "") with 0 in L; lia | reflexivity].
Qed.

Lemma extractJiraTicketId_sound_witness :
  extractJiraTicketId "feature/PROJ-123-fix-login" = Some "PROJ-123"
  /\ isTicket "PROJ-123".
Proof.
  assert (H : extractJiraTicketId "feature/PROJ-123-fix-login" = Some "PROJ-123")
    by reflexivity.
  split; [exact H|].
  exact (proj1 (extractJiraTicketId_sound _ _ H)).
Defined.

Lemma matchJiraAt_ticket (letters digits rest : string) :
  2 <= Js.len letters -> allChars isUpper letters = true ->
  1 <= Js.len digits -> allChars isDigit digits = true ->
  exists ticket, matchJiraAt (letters +++ "-" +++ digits +++ rest) = Some ticket.
Proof.
  intros L A D A'. unfold matchJiraAt.
  rewrite (takeWhile_append isUpper letters _ A).
  change (takeWhile isUpper ("-" +++ digits +++ rest))
    with ("", String "-" (digits +++ rest)).
  simpl fst. simpl snd. rewrite append_empty_r.
  rewrite (proj2 (Z.leb_le _ _) L). rewrite Ascii.eqb_refl.
  rewrite (takeWhile_append isDigit digits rest A').
  assert (Hd : (1 <=? Js.len (digits +++ fst (takeWhile isDigit rest))) = true).
  { apply Z.leb_le. rewrite len_append.
    pose proof (len_nonneg (fst (takeWhile isDigit rest))). lia. }
  rewrite Hd. eauto.
Qed.

(** X9: [extractJiraTicketId] misses no ticket: whenever the branch
    name holds a ticket somewhere, a ticket is found. *)
Theorem extractJiraTicketId_complete (before ticket rest : string) :
  isTicket ticket ->
  exists found, extractJiraTicketId (before +++ ticket +++ rest) = Some found.
Proof.
  intros (letters & digits & -> & L & A & D & A').
  induction before as [|c before IH].
  - change ("" +++ (letters +++ "-" +++ digits) +++ rest)
      with ((letters +++ "-" +++ digits) +++ rest).
    rewrite !append_assoc.
    destruct (matchJiraAt_ticket letters digits rest L A D A') as [t M].
    exists t. destruct letters as [|x letters'].
    + change (Js.len "") with 0 in L. lia.
    + simpl String.append in *. simpl extractJiraTicketId. now rewrite M.
  - destruct IH as [found IH]. simpl String.append.
    simpl extractJiraTicketId.
    destruct (matchJiraAt _) as [m|]; [now exists m | now exists found].
Qed.

Lemma extractJiraTicketId_complete_witness :
  isTicket "AB-7"
  /\ exists found, extractJiraTicketId ("bugfix/" +++ "AB-7" +++ "_retry")
                   = Some found.
Proof.
  assert (H : isTicket "AB-7").
  { exists "AB", "7". repeat split; try reflexivity; vm_compute; discriminate. }
  split; [exact H|].
  exact (extractJiraTicketId_complete "bugfix/" "AB-7" "_retry" H).
Defined.

Lemma whitespaceFree_empty : whitespaceFree "".
Proof. intros c _ []. Qed.

Lemma whitespaceFree_cons (x : ascii) (r : string) :
  Js.isWhitespace x = false -> whitespaceFree r -> whitespaceFree (String x r).
Proof.
  intros Hx Hr c Hc [<- | H]; [congruence | now apply (Hr c)].
Qed.

Lemma whitespaceFree_append (a b : string) :
  whitespaceFree a -> whitespaceFree b -> whitespaceFree (a +++ b).
Proof.
  intros Ha Hb. induction a as [|x a IH]; [exact Hb|].
  simpl. apply whitespaceFree_cons.
  - destruct (Js.isWhitespace x) eqn:X; [|reflexivity].
    elim (Ha x X). now left.
  - apply IH. intros c Hc Hin. apply (Ha c Hc). now right.
Qed.

Lemma class_no_whitespace (lo hi : nat) (d : ascii) :
  (33 <= lo)%nat -> (hi <= 159)%nat ->
  (Nat.leb lo (nat_of_ascii d) && Nat.leb (nat_of_ascii d) hi)%bool = true ->
  Js.isWhitespace d = false.
Proof.
  intros Hlo Hhi H. apply andb_prop in H. destruct H as [H1 H2].
  apply Nat.leb_le in H1. apply Nat.leb_le in H2. unfold Js.isWhitespace.
  cbv zeta.
  repeat match goal with
         | |- context [Nat.leb ?x ?y] => destruct (Nat.leb_spec x y)
         | |- context [Nat.eqb ?x ?y] => destruct (Nat.eqb_spec x y)
         end; try reflexivity; lia.
Qed.

Lemma allChars_whitespaceFree (p : ascii -> bool) (s : string) :
  (forall d, p d = true -> Js.isWhitespace d = false) ->
  allChars p s = true -> whitespaceFree s.
Proof.
  intros Hp. induction s as [|d r IH]; intros A; [apply whitespaceFree_empty|].
  simpl in A. apply andb_prop in A. destruct A as [D A].
  apply whitespaceFree_cons; [now apply Hp | now apply IH].
Qed.

Lemma ticket_whitespaceFree (ticket : string) :
  isTicket ticket -> whitespaceFree ticket.
Proof.
  intros (letters & digits & -> & _ & A & _ & A').
  apply whitespaceFree_append.
  - apply (allChars_whitespaceFree isUpper); [|exact A].
    intros d. apply (class_no_whitespace 65 90); lia.
  - apply whitespaceFree_cons; [reflexivity|].
    apply (allChars_whitespaceFree isDigit); [|exact A'].
    intros d. apply (class_no_whitespace 48 57); lia.
Qed.

(** X10: with the ticket of the branch name every proposal gets the
    Jira format: the subject line starts with the ticket, a hyphen and
    the type, and when the type holds no whitespace the whole subject line
    holds none. *)
Theorem jira_subject_from_branch (host : Host) (branchName ticket : string)
    (commit : CommitProposal) :
  extractJiraTicketId branchName = Some ticket ->
  let subject :=
    commitMessage
      (buildCommitMessages host commit (extractJiraTicketId branchName)) in
  (exists rest, subject = ticket +++ "-" +++ type commit +++ rest)
  /\ (whitespaceFree (type commit) -> whitespaceFree subject).
Proof.
  intros H subject. subst subject. rewrite H.
  destruct (extractJiraTicketId_sound _ _ H) as (T & _ & Tr).
  unfold buildCommitMessages. simpl hasLength. rewrite Tr. simpl commitMessage.
  split.
  - eexists. rewrite !append_assoc. reflexivity.
  - intros Hty.
    apply whitespaceFree_append; [now apply ticket_whitespaceFree|].
    apply whitespaceFree_cons; [reflexivity|].
    apply whitespaceFree_append.
    + apply whitespaceFree_append; [exact Hty|].
      destruct (breaking commit);
        [apply whitespaceFree_cons; [reflexivity|]|]; apply whitespaceFree_empty.
    + apply whitespaceFree_cons; [reflexivity|].
      intros c Hc. now apply replaceRuns_no_whitespace.
Qed.

Lemma jira_subject_from_branch_witness :
  extractJiraTicketId "feature/PROJ-123-fix-login" = Some "PROJ-123"
  /\ whitespaceFree
       (commitMessage
          (buildCommitMessages plainHost loginFix
             (extractJiraTicketId "feature/PROJ-123-fix-login"))).
Proof.
  assert (H : extractJiraTicketId "feature/PROJ-123-fix-login" = Some "PROJ-123")
    by reflexivity.
  split; [exact H|].
  apply (proj2 (jira_subject_from_branch plainHost _ _ loginFix H)).
  repeat (apply whitespaceFree_cons; [reflexivity|]).
  apply whitespaceFree_empty.
Defined.

(* ================================================================= *)
(** ** Formatting a subject line again *)

(** X11: formatting is idempotent: when the subject line of a proposal
    without a Jira ticket is itself taken as the description of the
    proposal, and decapitalizing leaves it as it is, the subject line
    comes out unchanged, the prefix not written a second time. *)
Theorem buildCommitMessages_idempotent (host : Host) (commit : CommitProposal)
    (jiraTicketId : option string) :
  hasLength jiraTicketId = false ->
  let subject := commitMessage (buildCommitMessages host commit jiraTicketId) in
  decapitalizeFirstLetter host subject = subject ->
  commitMessage
    (buildCommitMessages host (withDescription subject commit) jiraTicketId)
  = subject.
Proof.
  intros H subject Hd.
  pose proof (buildCommitMessages_conventional host commit jiraTicketId H) as E.
  pose proof (buildCommitMessages_conventional host
                (withDescription subject commit) jiraTicketId H) as E'.
  cbv zeta in E, E'. fold subject in E.
  change (description (withDescription subject commit)) with subject in E'.
  change (conventionalPrefix (withDescription subject commit))
    with (conventionalPrefix commit) in E'.
  rewrite Hd in E'. rewrite E'.
  destruct (Js.startsWith subject (conventionalPrefix commit)) eqn:S;
    [reflexivity|].
  exfalso. rewrite E in S.
  destruct (Js.startsWith (decapitalizeFirstLetter host (description commit))
              (conventionalPrefix commit)) eqn:S'.
  - rewrite S in S'. discriminate S'.
  - rewrite startsWith_append in S. discriminate S.
Qed.

Lemma buildCommitMessages_idempotent_witness :
  hasLength None = false
  /\ commitMessage
       (buildCommitMessages plainHost
          (withDescription "fix(auth)!: handle  expired tokens" loginFix) None)
     = "fix(auth)!: handle  expired tokens".
Proof.
  assert (H : hasLength None = false) by reflexivity.
  split; [exact H|].
  exact (buildCommitMessages_idempotent plainHost loginFix None H eq_refl).
Defined.

(* ================================================================= *)
(** ** Invariants with a condition on the exit *)

Section Triple.

Variable I : RunState -> Prop.
Variable E : Z -> RunState -> Prop.

Lemma triple_ret {A} (a : A) : triple I (ret a) E.
Proof. intros s H. exact H. Qed.

Lemma triple_exit {A} (code : Z) :
  (forall s, I s -> E code s) -> triple I (@exit A code) E.
Proof. intros HE s H. now apply HE. Qed.

Lemma triple_getCommitCount : triple I getCommitCount E.
Proof. intros s H. exact H. Qed.

Lemma triple_bind {A B} (m : M A) (k : A -> M B) :
  triple I m E -> (forall a, triple I (k a) E) -> triple I (bind m k) E.
Proof.
  intros Hm Hk s H. unfold bind. specialize (Hm s H).
  destruct (m s) as [a s' | code s'].
  - now apply Hk.
  - exact Hm.
Qed.

Lemma triple_forEach {A} (xs : list A) (f : A -> M unit) :
  (forall x, triple I (f x) E) -> triple I (forEach xs f) E.
Proof.
  intros Hf. induction xs as [|x xs IH]; simpl.
  - apply triple_ret.
  - apply triple_bind; [apply Hf | intros _; exact IH].
Qed.

Lemma triple_emit (e : Event) :
  (forall s, I s ->
     I {| trace := trace s ++ [e]; commitCount := commitCount s;
          shown := shown s |}) ->
  triple I (emit e) E.
Proof. intros He s H. now apply He. Qed.

Lemma triple_nextShown :
  (forall s, I s ->
     I {| trace := trace s; commitCount := commitCount s;
          shown := S (shown s) |}) ->
  triple I nextShown E.
Proof. intros He s H. now apply He. Qed.

Lemma triple_incrCommitCount :
  (forall s, I s ->
     I {| trace := trace s; commitCount := commitCount s + 1;
          shown := shown s |}) ->
  triple I incrCommitCount E.
Proof. intros He s H. now apply He. Qed.

(** The result of a run that starts with [I]. *)
Lemma triple_result {A} (m : M A) (s : RunState) :
  triple I m E -> I s ->
  (exists a s', m s = Next a s' /\ I s')
  \/ (exists code s', m s = Exit code s' /\ E code s').
Proof.
  intros Hm H. specialize (Hm s H). destruct (m s) as [a s' | code s'].
  - left. now exists a, s'.
  - right. now exists code, s'.
Qed.

End Triple.

Ltac walk3 base :=
  repeat
    (idtac;
     match goal with
     | |- triple _ (ret _) _ => apply triple_ret
     | |- triple _ getCommitCount _ => apply triple_getCommitCount
     | |- triple _ (bind (emit _) (fun _ => exit _)) _ => base
     | |- triple _ (bind _ _) _ => apply triple_bind; [|intros ?]
     | |- triple _ (forEach _ _) _ => apply triple_forEach; intros ?
     | |- triple _ (let _ := _ in _) _ => cbv zeta
     | |- triple _ (match ?x with _ => _ end) _ => destruct x
     | |- triple _ _ _ => base
     end).

Ltac unfold_main :=
  unfold main, analyse, findJiraTicket, collectChanges, commitHistory,
    checkTokens, consumeStream, processCommit, postCommit, finish.

(* ================================================================= *)
(** ** Exit codes and failures *)

Ltac codes_base :=
  idtac;
  match goal with
  | |- triple _ (exit _) _ => apply triple_exit; intros ? _; lia
  | |- triple _ (emit _) _ => apply triple_emit; intros ? ?; exact I
  | |- triple _ nextShown _ => apply triple_nextShown; intros ? ?; exact I
  | |- triple _ incrCommitCount _ =>
      apply triple_incrCommitCount; intros ? ?; exact I
  end.

(** X12: a run ends with the exit code 0 or the exit code 1. *)
Theorem run_exit_code (host : Host) (w : World) (options : Options)
    (args : list string) :
  exitCode (run host w options args) = 0
  \/ exitCode (run host w options args) = 1.
Proof.
  assert (T : triple (fun _ => True) (main host w options args)
                (fun code _ => code = 0 \/ code = 1)).
  { unfold_main. walk3 codes_base. }
  unfold run. specialize (T initial I).
  destruct (main host w options args initial); simpl; [now left | exact T].
Qed.

Lemma NoFailure_emit (e : Event) (s : RunState) :
  isFailure e = false -> NoFailure s ->
  NoFailure {| trace := trace s ++ [e]; commitCount := commitCount s;
               shown := shown s |}.
Proof.
  unfold NoFailure. simpl. intros He H.
  rewrite forallb_app, H. simpl. now rewrite He.
Qed.

Lemma triple_failure (e : Event) :
  isFailure e = true ->
  triple NoFailure (emit e ;;; @exit unit 1) FailedLast.
Proof.
  intros He s H. unfold bind, emit, exit. right. split; [reflexivity|].
  exists (trace s), e. simpl. now repeat split.
Qed.

Ltac failure_base :=
  idtac;
  match goal with
  | |- triple _ (bind (emit _) (fun _ => exit _)) _ =>
      apply triple_failure; reflexivity
  | |- triple _ (exit _) _ => apply triple_exit; intros ? ?; now left
  | |- triple _ (emit _) _ =>
      apply triple_emit; intros ? ?; apply NoFailure_emit;
      [reflexivity | assumption]
  | |- triple _ nextShown _ => apply triple_nextShown; intros ? ?; assumption
  | |- triple _ incrCommitCount _ =>
      apply triple_incrCommitCount; intros ? ?; assumption
  end.

Lemma failure_main (host : Host) (w : World) (options : Options)
    (args : list string) :
  triple NoFailure (main host w options args) FailedLast.
Proof.
  unfold_main. walk3 failure_base.
Qed.

Lemma no_failure_inside (before later : list Event) (e : Event) :
  forallb (fun e => negb (isFailure e)) (before ++ e :: later) = true ->
  isFailure e = false.
Proof.
  rewrite forallb_app. simpl. intros H.
  apply andb_prop in H. destruct H as [_ H].
  apply andb_prop in H. destruct H as [H _]. now apply negb_true_iff.
Qed.

(** X13: a call that throws while a proposal is applied, or in the
    post-commit stage, ends the run: it is the last event of the trace
    and the exit code is 1. *)
Theorem failure_is_last_and_fatal (host : Host) (w : World)
    (options : Options) (args : list string) (before later : list Event)
    (e : Event) :
  trace (finalState (run host w options args)) = before ++ e :: later ->
  isFailure e = true ->
  later = [] /\ exitCode (run host w options args) = 1.
Proof.
  intros Ht He. unfold run in *.
  pose proof (failure_main host w options args initial eq_refl) as T.
  destruct (main host w options args initial) as [a s | code s];
    simpl in Ht |- *.
  - unfold NoFailure in T. rewrite Ht in T.
    apply no_failure_inside in T. congruence.
  - destruct T as [T | (-> & pre & e' & Hs & He' & Hpre)].
    + unfold NoFailure in T. rewrite Ht in T.
      apply no_failure_inside in T. congruence.
    + split; [|reflexivity].
      rewrite Hs in Ht. destruct later as [|x later']; [reflexivity|].
      exfalso.
      assert (Hin : In e pre).
      { assert (Hr : rev (pre ++ [e']) = rev (before ++ e :: x :: later'))
          by (now rewrite Ht).
        rewrite !rev_app_distr in Hr. simpl in Hr.
        rewrite <- !app_assoc in Hr. simpl in Hr.
        destruct (rev later') as [|y ys] eqn:R; simpl in Hr.
        - injection Hr as _ Hr. apply in_rev. rewrite Hr. now left.
        - injection Hr as _ Hr. apply in_rev. rewrite Hr.
          apply in_or_app. right. right. now left. }
      rewrite forallb_forall in Hpre. specialize (Hpre e Hin).
      rewrite He in Hpre. discriminate Hpre.
Qed.

Lemma failure_is_last_and_fatal_witness :
  trace (finalState (run plainHost commitFails noOptions []))
  = [EvCheckIsRepo; EvStatus []; EvDiffSummary []; EvDiff [];
     EvStreamObject "diff --git a/flags.ts b/flags.ts";
     renderEvent plainHost None featureFlags; EvConfirm true;
     EvAdd ["flags.ts"] true]
    ++ EvCommit "feature flags added" ["flags.ts"] false :: []
  /\ exitCode (run plainHost commitFails noOptions []) = 1.
Proof.
  assert (H : trace (finalState (run plainHost commitFails noOptions []))
              = [EvCheckIsRepo; EvStatus []; EvDiffSummary []; EvDiff [];
                 EvStreamObject "diff --git a/flags.ts b/flags.ts";
                 renderEvent plainHost None featureFlags; EvConfirm true;
                 EvAdd ["flags.ts"] true]
                ++ EvCommit "feature flags added" ["flags.ts"] false :: [])
    by reflexivity.
  split; [exact H|].
  exact (proj2 (failure_is_last_and_fatal plainHost commitFails noOptions []
                  _ _ _ H eq_refl)).
Defined.

(* ================================================================= *)
(** ** The events of a proposal *)

Lemma processCommit_events (host : Host) (w : World)
    (jiraTicketId : option string) (commit : CommitProposal) (s : RunState) :
  exists events applied,
    proposalEvents host jiraTicketId commit events
    /\ applied = Z.of_nat (List.length (filter isCommitted events))
    /\ (applied = 0 \/ applied = 1 /\ In (EvConfirm true) events)
    /\ (processCommit host w jiraTicketId commit s
        = Next tt (after s events applied)
        \/ processCommit host w jiraTicketId commit s
           = Exit 1 (after s events applied)).
Proof.
  unfold proposalEvents, renderEvent.
  destruct (confirmCommit w (shown s)) eqn:H.
  - destruct (isOk (git_add w (shown s))) eqn:Ha.
    + destruct (isOk (git_commit w (shown s))) eqn:Hc.
      * eexists _, 1. split; [right; right; exists true; reflexivity|].
        split; [reflexivity|]. split; [right; split; [reflexivity|]|].
        -- right. now left.
        -- left. now apply processCommit_applied.
      * eexists _, 0. split; [right; right; exists false; reflexivity|].
        split; [reflexivity|]. split; [now left|].
        right. now apply processCommit_commit_failed.
    + eexists _, 0. split; [right; left; reflexivity|].
      split; [reflexivity|]. split; [now left|].
      right. now apply processCommit_staging_failed.
  - eexists _, 0. split; [left; reflexivity|].
    split; [reflexivity|]. split; [now left|].
    left. now apply processCommit_declined.
Qed.

(* ================================================================= *)
(** ** Staging before every commit *)

Lemma commitsFollowStaging_app (a b : list Event) :
  commitsFollowStaging a -> commitsFollowStaging b ->
  commitsFollowStaging (a ++ b).
Proof.
  intros Ha Hb before m f ok later H.
  apply app_eq_app in H. destruct H as [l [[H1 H2] | [H1 H2]]].
  - destruct l as [|x l'].
    + rewrite app_nil_r in H1. subst a. simpl in H2.
      destruct (Hb [] m f ok later (eq_sym H2)) as [earlier E].
      destruct earlier; discriminate E.
    + simpl in H2. injection H2 as <- H2.
      apply (Ha before m f ok l'). exact H1.
  - destruct (Hb l m f ok later H2) as [earlier E].
    exists (a ++ earlier). now rewrite H1, E, app_assoc.
Qed.

Lemma commitsFollowStaging_one (e : Event) :
  (forall m f ok, e <> EvCommit m f ok) -> commitsFollowStaging [e].
Proof.
  intros He before m f ok later H.
  destruct before as [|x before'].
  - injection H as H _. now elim (He m f ok).
  - injection H as _ H. destruct before'; discriminate H.
Qed.

Lemma commitsFollowStaging_proposal (host : Host)
    (jiraTicketId : option string) (commit : CommitProposal)
    (events : list Event) :
  proposalEvents host jiraTicketId commit events -> commitsFollowStaging events.
Proof.
  intros [-> | [-> | [ok' ->]]] before m f ok later H;
    repeat (destruct before as [|? before];
            [try discriminate H | injection H as <- H]);
    try (destruct before; discriminate H).
  injection H as _ <- _ _. now exists [renderEvent host jiraTicketId commit].
Qed.

Lemma StagedFirst_emit (e : Event) (s : RunState) :
  isStaging e = false -> StagedFirst s ->
  StagedFirst {| trace := trace s ++ [e]; commitCount := commitCount s;
                 shown := shown s |}.
Proof.
  intros He H. unfold StagedFirst. simpl.
  apply commitsFollowStaging_app; [exact H|].
  apply commitsFollowStaging_one. intros m f ok ->. discriminate He.
Qed.

Lemma StagedFirst_processCommit (host : Host) (w : World)
    (jiraTicketId : option string) (commit : CommitProposal) :
  preserves StagedFirst (processCommit host w jiraTicketId commit).
Proof.
  intros s H.
  destruct (processCommit_events host w jiraTicketId commit s)
    as (events & applied & Hev & _ & _ & [-> | ->]); simpl;
    (apply commitsFollowStaging_app;
     [exact H | exact (commitsFollowStaging_proposal _ _ _ _ Hev)]).
Qed.

Ltac staged_base :=
  idtac;
  match goal with
  | |- preserves _ (processCommit _ _ _ _) => apply StagedFirst_processCommit
  | |- preserves _ (forEach _ _) => apply preserves_forEach; intros ?
  | |- preserves _ (emit _) =>
      apply (preserves_emit StagedFirst (fun e => negb (isStaging e)));
      [intros ? ? He; apply StagedFirst_emit; now apply negb_true_iff in He
      | reflexivity]
  end.

(** X14: in every run a commit is created, or attempted, only right
    after the files of the same proposal were staged with success, and
    that only right after the operator accepted the proposal. *)
Theorem commit_only_after_staging (host : Host) (w : World)
    (options : Options) (args : list string)
    (before later : list Event) (m : string) (f : list string) (ok : bool) :
  trace (finalState (run host w options args))
  = before ++ EvCommit m f ok :: later ->
  exists earlier, before = earlier ++ [EvConfirm true; EvAdd f true].
Proof.
  assert (P : preserves StagedFirst (main host w options args)).
  { unfold main, analyse, findJiraTicket, collectChanges, commitHistory,
      checkTokens, consumeStream, postCommit, finish.
    walk staged_base. }
  apply (P initial). intros b m' f' ok' l H. destruct b; discriminate H.
Qed.

Lemma commit_only_after_staging_witness :
  trace (finalState (run plainHost twoBatches noOptions []))
  = [EvCheckIsRepo; EvStatus []; EvDiffSummary []; EvDiff [];
     EvStreamObject "diff --git a/flags.ts b/flags.ts";
     renderEvent plainHost None featureFlags; EvConfirm true;
     EvAdd ["flags.ts"] true]
    ++ EvCommit "feature flags added" ["flags.ts"] true
       :: [renderEvent plainHost None loginFix; EvConfirm false;
           EvPullRequest true]
  /\ exists earlier,
       [EvCheckIsRepo; EvStatus []; EvDiffSummary []; EvDiff [];
        EvStreamObject "diff --git a/flags.ts b/flags.ts";
        renderEvent plainHost None featureFlags; EvConfirm true;
        EvAdd ["flags.ts"] true]
       = earlier ++ [EvConfirm true; EvAdd ["flags.ts"] true].
Proof.
  assert (H : trace (finalState (run plainHost twoBatches noOptions []))
              = [EvCheckIsRepo; EvStatus []; EvDiffSummary []; EvDiff [];
                 EvStreamObject "diff --git a/flags.ts b/flags.ts";
                 renderEvent plainHost None featureFlags; EvConfirm true;
                 EvAdd ["flags.ts"] true]
                ++ EvCommit "feature flags added" ["flags.ts"] true
                   :: [renderEvent plainHost None loginFix; EvConfirm false;
                       EvPullRequest true])
    by reflexivity.
  split; [exact H|].
  exact (commit_only_after_staging plainHost twoBatches noOptions [] _ _ _ _ _ H).
Defined.

(* ================================================================= *)
(** ** The proposals are taken in the order of the stream *)

Lemma proposalEvents_rendered (host : Host) (jiraTicketId : option string)
    (commit : CommitProposal) (events : list Event) :
  proposalEvents host jiraTicketId commit events ->
  filter isRender events = [renderEvent host jiraTicketId commit].
Proof. intros [-> | [-> | [ok ->]]]; reflexivity. Qed.

Lemma loop_rendered (host : Host) (w : World) (jiraTicketId : option string)
    (l : list CommitProposal) (s : RunState) :
  let final := finalState (forEach l (processCommit host w jiraTicketId) s) in
  exists k,
    (k <= List.length l)%nat
    /\ shown final = (shown s + k)%nat
    /\ filter isRender (trace final)
       = filter isRender (trace s)
         ++ map (renderEvent host jiraTicketId) (firstn k l).
Proof.
  revert s. induction l as [|c l IH]; intros s; simpl.
  - exists 0%nat. simpl. now rewrite Nat.add_0_r, app_nil_r.
  - unfold bind.
    destruct (processCommit_events host w jiraTicketId c s)
      as (events & applied & Hev & _ & _ & [-> | ->]).
    + destruct (IH (after s events applied)) as (k & Hk & Hs & Hr).
      exists (S k). split; [lia|]. split.
      * rewrite Hs. simpl. lia.
      * rewrite Hr. simpl trace. rewrite filter_app.
        rewrite (proposalEvents_rendered _ _ _ _ Hev).
        now rewrite <- app_assoc.
    + exists 1%nat. split; [simpl; lia|]. split.
      * simpl. lia.
      * simpl trace. rewrite filter_app.
        now rewrite (proposalEvents_rendered _ _ _ _ Hev).
Qed.

Lemma Kept_emit (n : nat) (rendered : list Event) (e : Event) (s : RunState) :
  negb (isRender e) = true -> Kept n rendered s ->
  Kept n rendered
    {| trace := trace s ++ [e]; commitCount := commitCount s;
       shown := shown s |}.
Proof.
  unfold Kept. simpl. intros He [Hn Hr]. split; [exact Hn|].
  rewrite filter_app. simpl. apply negb_true_iff in He. rewrite He.
  now rewrite app_nil_r.
Qed.

Ltac kept_base :=
  idtac;
  match goal with
  | |- preserves (Kept ?n ?l) (emit _) =>
      apply (preserves_emit (Kept n l) (fun e => negb (isRender e))
               (Kept_emit n l)); reflexivity
  end.

(** X15: the proposals are shown in the order of the stream, each one
    once and none skipped: what a run has shown is, in order, the first
    proposals of the batches, as many as it came to. *)
Theorem proposals_in_stream_order (host : Host) (w : World)
    (options : Options) (args : list string) (jiraTicketId : option string)
    (stream : ElementStream) (s0 : RunState) :
  analyse host w options args initial = Next (jiraTicketId, stream) s0 ->
  let final := finalState (run host w options args) in
  let proposals := concat (map commits (elements stream)) in
  (shown final <= List.length proposals)%nat
  /\ filter isRender (trace final)
     = map (renderEvent host jiraTicketId) (firstn (shown final) proposals).
Proof.
  intros Ha final proposals.
  assert (K0 : Kept 0 [] s0).
  { assert (P : preserves (Kept 0 []) (analyse host w options args)).
    { unfold analyse, findJiraTicket, collectChanges, commitHistory,
        checkTokens. walk kept_base. }
    specialize (P initial (conj eq_refl eq_refl)). now rewrite Ha in P. }
  destruct K0 as [Hn Hr].
  destruct (loop_rendered host w jiraTicketId proposals s0)
    as (k & Hk & Hs & Hl).
  rewrite Hn in Hs. simpl in Hs. rewrite Hr in Hl. simpl in Hl.
  assert (G : Kept k (map (renderEvent host jiraTicketId) (firstn k proposals))
                final).
  { subst final. unfold run, main. unfold bind at 1. rewrite Ha.
    unfold consumeStream. unfold bind at 1. unfold bind at 1.
    rewrite forEach_batches. fold proposals.
    destruct (forEach proposals (processCommit host w jiraTicketId) s0)
      as [u s1 | code s1] eqn:L; simpl in Hs, Hl.
    - assert (P : forall n l,
                 preserves (Kept n l)
                   ((if throwsAtEnd stream then exit 1 else ret tt) ;;;
                    postCommit w options ;;; finish)).
      { intros n l. unfold postCommit, finish. walk kept_base. }
      unfold bind in P. apply (P k _ s1). now split.
    - now split. }
  destruct G as [Gs Gr]. rewrite Gs. now split.
Qed.

Lemma proposals_in_stream_order_witness :
  shown (finalState (run plainHost commitFails noOptions [])) = 1%nat
  /\ filter isRender (trace (finalState (run plainHost commitFails noOptions [])))
     = [renderEvent plainHost None featureFlags].
Proof.
  split; [reflexivity|].
  rewrite (proj2 (proposals_in_stream_order plainHost commitFails noOptions []
                    None _ _ eq_refl)).
  reflexivity.
Defined.

(* ================================================================= *)
(** ** Commits, accepted proposals and proposals shown *)

Lemma Bounded_emit (e : Event) (s : RunState) :
  negb (isAccepted e) = true -> Bounded s ->
  Bounded {| trace := trace s ++ [e]; commitCount := commitCount s;
             shown := shown s |}.
Proof.
  unfold Bounded. simpl. intros He [H1 H2]. rewrite !filter_app, !length_app.
  apply negb_true_iff in He. simpl. rewrite He. simpl.
  destruct (isRender e); simpl; lia.
Qed.

Lemma Bounded_processCommit (host : Host) (w : World)
    (jiraTicketId : option string) (commit : CommitProposal) :
  preserves Bounded (processCommit host w jiraTicketId commit).
Proof.
  intros s [H1 H2].
  destruct (processCommit_events host w jiraTicketId commit s)
    as (events & applied & Hev & -> & _ & [-> | ->]);
    unfold Bounded, after; simpl;
    rewrite !filter_app, !length_app;
    destruct Hev as [-> | [-> | [[|] ->]]]; simpl; lia.
Qed.

Ltac bounded_base :=
  idtac;
  match goal with
  | |- preserves _ (processCommit _ _ _ _) => apply Bounded_processCommit
  | |- preserves _ (forEach _ _) => apply preserves_forEach; intros ?
  | |- preserves _ (emit _) =>
      apply (preserves_emit Bounded (fun e => negb (isAccepted e))
               Bounded_emit); reflexivity
  end.

(** X16: in every run the applied-commit counter is at most the number
    of proposals the operator accepted, which is at most the number of
    proposals shown. *)
Theorem commits_at_most_accepted (host : Host) (w : World)
    (options : Options) (args : list string) :
  let final := finalState (run host w options args) in
  commitCount final
  <= Z.of_nat (List.length (filter isAccepted (trace final)))
  /\ (List.length (filter isAccepted (trace final))
      <= List.length (filter isRender (trace final)))%nat.
Proof.
  assert (P : preserves Bounded (main host w options args)).
  { unfold main, analyse, findJiraTicket, collectChanges, commitHistory,
      checkTokens, consumeStream, postCommit, finish.
    walk bounded_base. }
  apply (P initial). split; simpl; lia.
Qed.

(* ================================================================= *)
(** ** Declining every proposal *)

Lemma Untouched_emit (e : Event) (s : RunState) :
  negb (isStaging e) = true -> Untouched s ->
  Untouched {| trace := trace s ++ [e]; commitCount := commitCount s;
               shown := shown s |}.
Proof.
  unfold Untouched. simpl. intros He [H1 H2]. split; [exact H1|].
  rewrite forallb_app, H2. simpl. now rewrite He.
Qed.

Lemma Untouched_processCommit (host : Host) (w : World)
    (jiraTicketId : option string) (commit : CommitProposal) :
  (forall i, confirmCommit w i = false) ->
  preserves Untouched (processCommit host w jiraTicketId commit).
Proof.
  intros Hno s [H1 H2]. rewrite processCommit_declined by apply Hno.
  unfold Untouched, after. simpl. split; [lia|].
  rewrite forallb_app, H2. reflexivity.
Qed.

(** X17: when the operator declines every proposal nothing is staged
    and nothing is committed, the counter stays at 0 and the pull-request
    flow is not entered. *)
Theorem declining_everything_changes_nothing (host : Host) (w : World)
    (options : Options) (args : list string) :
  (forall i, confirmCommit w i = false) ->
  let final := finalState (run host w options args) in
  commitCount final = 0
  /\ (forall e, In e (trace final) -> isStaging e = false)
  /\ (forall ok, ~ In (EvPullRequest ok) (trace final)).
Proof.
  intros Hno final.
  assert (P : preserves Untouched (main host w options args)).
  { unfold main, analyse, findJiraTicket, collectChanges, commitHistory,
      checkTokens, consumeStream, postCommit, finish.
    walk ltac:(idtac;
               match goal with
               | |- preserves _ (processCommit _ _ _ _) =>
                   apply Untouched_processCommit; exact Hno
               | |- preserves _ (forEach _ _) =>
                   apply preserves_forEach; intros ?
               | |- preserves _ (emit _) =>
                   apply (preserves_emit Untouched
                            (fun e => negb (isStaging e)) Untouched_emit);
                   reflexivity
               end). }
  destruct (P initial (conj eq_refl eq_refl)) as [H0 Hs].
  fold (run host w options args) in H0, Hs. fold final in H0, Hs.
  split; [exact H0|]. split.
  - intros e Hin. rewrite forallb_forall in Hs.
    apply negb_true_iff. now apply Hs.
  - intros ok Hin.
    destruct (PostGated_main host w options args initial) as [Hpr _].
    + split; intros ? [].
    + fold (run host w options args) in Hpr. fold final in Hpr.
      destruct (Hpr ok Hin) as [Hc _]. lia.
Qed.

Lemma declining_everything_changes_nothing_witness :
  (forall i, confirmCommit allDeclined i = false)
  /\ commitCount (finalState (run plainHost allDeclined pushOnly [])) = 0.
Proof.
  assert (H : forall i, confirmCommit allDeclined i = false) by reflexivity.
  split; [exact H|].
  exact (proj1 (declining_everything_changes_nothing plainHost allDeclined
                  pushOnly [] H)).
Defined.

(* ================================================================= *)
(** ** Runs that end before the model is called *)

(** X18: with a provider and a repository, a clean working tree ends
    the run with exit code 0 after the status query: no diff is asked
    for, the model is not called and nothing is changed. *)
Theorem clean_tree_exits_zero (host : Host) (w : World) (options : Options)
    (args : list string) (status : StatusResult) :
  isOk (detectAndConfigureAIProvider (env w) (thinking options)) = true ->
  git_checkIsRepo w = Ok true ->
  git_status w = Ok status ->
  isClean status = true ->
  let r := run host w options args in
  exitCode r = 0
  /\ commitCount (finalState r) = 0
  /\ forall e, In e (trace (finalState r)) -> isStatusQuery args e.
Proof.
  intros Hp Hrepo Hstatus Hclean r. subst r.
  unfold run, main, analyse, findJiraTicket, collectChanges, isStatusQuery.
  rewrite Hstatus, Hrepo.
  destruct (detectAndConfigureAIProvider (env w) (thinking options));
    [|discriminate Hp].
  unfold bind, emit, ret, exit. simpl. rewrite Hclean.
  destruct (jira options); [destruct (git_revparse w)|]; simpl;
    repeat split; intros e Hin;
    repeat (destruct Hin as [<- | Hin]; [tauto|]); destruct Hin.
Qed.

Lemma clean_tree_exits_zero_witness :
  isClean {| isClean := true; conflicted := []; staged := [] |} = true
  /\ exitCode (run plainHost cleanTree pushOnly []) = 0.
Proof.
  split; [reflexivity|].
  exact (proj1 (clean_tree_exits_zero plainHost cleanTree pushOnly [] _
                  eq_refl eq_refl eq_refl eq_refl)).
Defined.

(** X19: merge conflicts in a tree that is not clean end the run with
    exit code 1 after the status query: no diff is asked for, the model
    is not called and nothing is changed. *)
Theorem conflicts_exit_one (host : Host) (w : World) (options : Options)
    (args : list string) (status : StatusResult) :
  git_status w = Ok status ->
  isClean status = false ->
  conflicted status <> [] ->
  let r := run host w options args in
  exitCode r = 1
  /\ commitCount (finalState r) = 0
  /\ forall e, In e (trace (finalState r)) -> isStatusQuery args e.
Proof.
  intros Hstatus Hclean Hconf r. subst r.
  assert (Hc : nonEmpty (conflicted status) = true)
    by (destruct (conflicted status); [now elim Hconf | reflexivity]).
  unfold run, main, analyse, findJiraTicket, collectChanges, isStatusQuery.
  rewrite Hstatus.
  destruct (detectAndConfigureAIProvider (env w) (thinking options));
    [|simpl; repeat split; intros e []].
  destruct (git_checkIsRepo w) as [[|]|];
    try (simpl; repeat split; intros e [<- | []]; tauto).
  unfold bind, emit, ret, exit. simpl. rewrite Hclean, Hc.
  destruct (jira options); [destruct (git_revparse w)|]; simpl;
    repeat split; intros e Hin;
    repeat (destruct Hin as [<- | Hin]; [tauto|]); destruct Hin.
Qed.

Lemma conflicts_exit_one_witness :
  conflicted {| isClean := false; conflicted := ["auth.ts"]; staged := [] |}
  <> []
  /\ exitCode (run plainHost conflictedTree noOptions []) = 1.
Proof.
  assert (H : conflicted {| isClean := false; conflicted := ["auth.ts"];
                            staged := [] |} <> []) by discriminate.
  split; [exact H|].
  exact (proj1 (conflicts_exit_one plainHost conflictedTree noOptions [] _
                  eq_refl eq_refl H)).
Defined.

(* ================================================================= *)
(** ** The phases of a run *)

Lemma checkTokens_cases (host : Host) (w : World) (options : Options)
    (prompt : string) (s : RunState) :
  checkTokens host w options prompt s = Next tt s
  \/ checkTokens host w options prompt s
     = Next tt {| trace := trace s ++ [EvConfirmTokens true];
                  commitCount := commitCount s; shown := shown s |}
  \/ (unsafe options = false
      /\ checkTokens host w options prompt s
         = Exit 0 {| trace := trace s ++ [EvConfirmTokens false];
                     commitCount := commitCount s; shown := shown s |}).
Proof.
  unfold checkTokens.
  destruct (asksConfirmation _ && negb (unsafe options)) eqn:A;
    [|now left].
  apply andb_prop in A. destruct A as [_ U]. apply negb_true_iff in U.
  unfold bind, emit, ret, exit.
  destruct (confirmTokens w); [right; now left | right; right; now split].
Qed.

(** What [analyse] leaves: queries alone when it exits, declined token
    prompt only with exit code 0; queries and then the call of the model
    when it goes on, or when that call throws. *)
Lemma analyse_shape (host : Host) (w : World) (options : Options)
    (args : list string) :
  match analyse host w options args initial with
  | Next _ s => queriesThenStream (trace s) = true
  | Exit code s =>
      (forallb isQuery (trace s) = true
       /\ (existsb isDeclinedTokens (trace s) = true -> code = 0))
      \/ (code = 1 /\ queriesThenStream (trace s) = true)
  end.
Proof.
  unfold analyse, findJiraTicket, collectChanges, commitHistory.
  destruct (detectAndConfigureAIProvider (env w) (thinking options));
    [|left; split; [reflexivity | discriminate]].
  destruct (git_checkIsRepo w) as [[|]|];
    try (left; split; [reflexivity | discriminate]).
  unfold bind at 1. simpl emit. unfold bind at 1.
  destruct (jira options); [destruct (git_revparse w)|];
    unfold bind, emit, ret, exit; simpl;
    (destruct (git_status w) as [status|];
       [|left; split; [reflexivity | discriminate]];
     destruct (isClean status);
       [left; split; [reflexivity | discriminate]|];
     destruct (nonEmpty (conflicted status));
       [left; split; [reflexivity | discriminate]|];
     destruct (nonEmpty args && nonEmpty (staged status));
       [left; split; [reflexivity | discriminate]|];
     simpl;
     destruct (git_diffSummary w) as [diffSummary|];
       [|left; split; [reflexivity | discriminate]];
     simpl;
     destruct (git_diff w) as [diff|];
       [|left; split; [reflexivity | discriminate]];
     simpl;
     destruct (history options); [destruct (git_log w)|]; simpl;
     match goal with
     | |- context [checkTokens host w options ?p ?s] =>
         destruct (checkTokens_cases host w options p s)
           as [-> | [-> | [_ ->]]]
     end; simpl;
     try (left; split; [reflexivity | reflexivity]);
     destruct (streamObject w); simpl;
     try reflexivity; right; split; reflexivity).
Qed.

Lemma queriesThenStream_split (tr : list Event) :
  queriesThenStream tr = true ->
  exists queries prompt,
    tr = queries ++ [EvStreamObject prompt]
    /\ forallb isQuery queries = true
    /\ existsb isDeclinedTokens queries = false.
Proof.
  induction tr as [|e tr IH]; [discriminate|].
  intros H.
  assert (C : (exists p, e = EvStreamObject p /\ tr = [])
              \/ (isQuery e = true /\ isDeclinedTokens e = false
                  /\ queriesThenStream tr = true)).
  { assert (D : (exists p, e = EvStreamObject p) \/
                 queriesThenStream (e :: tr)
                 = isQuery e && negb (isDeclinedTokens e)
                   && queriesThenStream tr)
      by (destruct e; try (right; reflexivity); left; eauto).
    destruct D as [[p ->] | D].
    - destruct tr; [left; eauto | discriminate H].
    - rewrite D in H. right.
      apply andb_prop in H. destruct H as [H1 H2].
      apply andb_prop in H1. destruct H1 as [H1 H3].
      apply negb_true_iff in H3. now repeat split. }
  destruct C as [(p & -> & ->) | (Hq & Hd & Ht)].
  - exists [], p. now repeat split.
  - destruct (IH Ht) as (queries & prompt & -> & Hall & Hno).
    exists (e :: queries), prompt. simpl. rewrite Hq, Hd, Hall, Hno.
    now repeat split.
Qed.

Lemma Applying_emit (base : list Event) (e : Event) (s : RunState) :
  isApply e = true -> Applying base s ->
  Applying base {| trace := trace s ++ [e]; commitCount := commitCount s;
                   shown := shown s |}.
Proof.
  intros He (applied & Ht & Ha). exists (applied ++ [e]). simpl. split.
  - now rewrite Ht, app_assoc.
  - rewrite forallb_app, Ha. simpl. now rewrite He.
Qed.

Lemma Applying_processCommit (base : list Event) (host : Host) (w : World)
    (jiraTicketId : option string) (commit : CommitProposal) :
  preserves (Applying base) (processCommit host w jiraTicketId commit).
Proof.
  intros s (applied & Ht & Ha).
  destruct (processCommit_events host w jiraTicketId commit s)
    as (events & n & Hev & _ & _ & [-> | ->]); simpl;
    (exists (applied ++ events); simpl trace; split;
     [now rewrite Ht, app_assoc
     | rewrite forallb_app, Ha;
       destruct Hev as [-> | [-> | [ok ->]]]; reflexivity]).
Qed.

Ltac applying_base :=
  idtac;
  match goal with
  | |- preserves _ (processCommit _ _ _ _) => apply Applying_processCommit
  | |- preserves _ (forEach _ _) => apply preserves_forEach; intros ?
  | |- preserves (Applying ?b) (emit _) =>
      apply (preserves_emit (Applying b) isApply (Applying_emit b));
      reflexivity
  end.

(** The trace of a run: that of [analyse] when it exits; that of
    [analyse] and then events of the loop and of the post-commit stage
    when it goes on. *)
Lemma run_shape (host : Host) (w : World) (options : Options)
    (args : list string) :
  match analyse host w options args initial with
  | Exit code s => run host w options args = Exit code s
  | Next _ s => Applying (trace s) (finalState (run host w options args))
  end.
Proof.
  assert (G : forall r,
             analyse host w options args initial = r ->
             match r with
             | Exit code s => run host w options args = Exit code s
             | Next _ s =>
                 Applying (trace s) (finalState (run host w options args))
             end); [|now apply G].
  intros r A.
  assert (Hrun : run host w options args
                 = match r with
                   | Next (j, stream) s =>
                       (consumeStream host w j stream ;;;
                        postCommit w options ;;; finish) s
                   | Exit code s => Exit code s
                   end).
  { unfold run, main. unfold bind at 1. rewrite A.
    now destruct r as [[? ?] ?|]. }
  rewrite Hrun.
  destruct r as [[j stream] s | code s]; [|reflexivity].
  assert (P : preserves (Applying (trace s))
                (consumeStream host w j stream ;;; postCommit w options ;;;
                 finish)).
  { unfold consumeStream, postCommit, finish. walk applying_base. }
  apply (P s). exists []. now rewrite app_nil_r.
Qed.

(** X20: a run has two phases: first the read-only queries and the
    token prompt; then, at most once, the call of the model, and after it
    only the events of the proposals and of the post-commit stage.  So the
    repository is changed only after the model was called, and it is not
    queried again afterwards. *)
Theorem run_phases (host : Host) (w : World) (options : Options)
    (args : list string) :
  let tr := trace (finalState (run host w options args)) in
  forallb isQuery tr = true
  \/ exists queries prompt applied,
       tr = queries ++ EvStreamObject prompt :: applied
       /\ forallb isQuery queries = true
       /\ forallb isApply applied = true.
Proof.
  intros tr. subst tr.
  pose proof (analyse_shape host w options args) as A.
  pose proof (run_shape host w options args) as R.
  destruct (analyse host w options args initial) as [x s | code s].
  - destruct (queriesThenStream_split _ A) as (queries & prompt & Es & Hq & _).
    destruct R as (applied & Et & Ha). right.
    exists queries, prompt, applied. rewrite Et, Es, <- app_assoc.
    now repeat split.
  - rewrite R. simpl. destruct A as [[Hq _] | [_ Hs]]; [now left|].
    destruct (queriesThenStream_split _ Hs) as (queries & prompt & Es & Hq & _).
    right. exists queries, prompt, []. now repeat split.
Qed.

Lemma existsb_In_declined (tr : list Event) :
  In (EvConfirmTokens false) tr -> existsb isDeclinedTokens tr = true.
Proof.
  intros H. apply existsb_exists. exists (EvConfirmTokens false). now split.
Qed.

(** X21: when the operator declines the token prompt, the run ends with
    exit code 0 and its trace holds queries only: the model was not
    called and nothing was changed. *)
Theorem declined_token_prompt_exits_zero (host : Host) (w : World)
    (options : Options) (args : list string) :
  In (EvConfirmTokens false) (trace (finalState (run host w options args))) ->
  exitCode (run host w options args) = 0
  /\ forallb isQuery (trace (finalState (run host w options args))) = true.
Proof.
  intros Hin. apply existsb_In_declined in Hin.
  pose proof (analyse_shape host w options args) as A.
  pose proof (run_shape host w options args) as R.
  assert (Hsplit : forall tr applied,
             queriesThenStream tr = true ->
             forallb isApply applied = true ->
             existsb isDeclinedTokens (tr ++ applied) = false).
  { intros tr applied Ht Ha.
    destruct (queriesThenStream_split _ Ht) as (q & p & -> & _ & Hno).
    rewrite !existsb_app, Hno. simpl.
    apply not_true_is_false. intros E. apply existsb_exists in E.
    destruct E as (e & He & Hd). rewrite forallb_forall in Ha.
    specialize (Ha e He). destruct e; try discriminate Hd; discriminate Ha. }
  destruct (analyse host w options args initial) as [x s | code s].
  - destruct R as (applied & Et & Ha). rewrite Et in Hin.
    rewrite (Hsplit _ _ A Ha) in Hin. discriminate Hin.
  - rewrite R in Hin |- *. simpl in Hin |- *.
    destruct A as [[Hq Hc] | [_ Hs]]; [split; [now apply Hc | exact Hq]|].
    rewrite <- (app_nil_r (trace s)) in Hin.
    rewrite (Hsplit _ [] Hs eq_refl) in Hin. discriminate Hin.
Qed.

Lemma declined_token_prompt_exits_zero_witness :
  In (EvConfirmTokens false)
     (trace (finalState (run plainHost hugePrompt pushOnly [])))
  /\ exitCode (run plainHost hugePrompt pushOnly []) = 0.
Proof.
  assert (H : In (EvConfirmTokens false)
                (trace (finalState (run plainHost hugePrompt pushOnly [])))).
  { vm_compute. tauto. }
  split; [exact H|].
  exact (proj1 (declined_token_prompt_exits_zero plainHost hugePrompt pushOnly
                  [] H)).
Defined.

(* ================================================================= *)
(** ** The token prompt and the unsafe option *)

Lemma Unprompted_emit (e : Event) (s : RunState) :
  negb (isTokenPrompt e) = true -> Unprompted s ->
  Unprompted {| trace := trace s ++ [e]; commitCount := commitCount s;
                shown := shown s |}.
Proof.
  unfold Unprompted. simpl. intros He H.
  rewrite forallb_app, H. simpl. now rewrite He.
Qed.

Lemma Unprompted_processCommit (host : Host) (w : World)
    (jiraTicketId : option string) (commit : CommitProposal) :
  preserves Unprompted (processCommit host w jiraTicketId commit).
Proof.
  intros s H.
  destruct (processCommit_events host w jiraTicketId commit s)
    as (events & n & Hev & _ & _ & [-> | ->]);
    unfold Unprompted, after; simpl; rewrite forallb_app, H;
    destruct Hev as [-> | [-> | [ok ->]]]; reflexivity.
Qed.

Lemma checkTokens_unsafe (host : Host) (w : World) (options : Options)
    (prompt : string) :
  unsafe options = true -> checkTokens host w options prompt = ret tt.
Proof.
  intros H. unfold checkTokens. rewrite H. simpl negb.
  now rewrite andb_false_r.
Qed.

(** X22: with the unsafe option the operator is never asked to confirm
    the token count, whatever the size of the prompt. *)
Theorem unsafe_never_prompts_for_tokens (host : Host) (w : World)
    (options : Options) (args : list string) (answer : bool) :
  unsafe options = true ->
  ~ In (EvConfirmTokens answer) (trace (finalState (run host w options args))).
Proof.
  intros Hu Hin.
  assert (P : preserves Unprompted (main host w options args)).
  { unfold main, analyse, findJiraTicket, collectChanges, commitHistory,
      consumeStream, postCommit, finish.
    walk ltac:(idtac;
               match goal with
               | |- preserves _ (checkTokens _ _ _ _) =>
                   rewrite checkTokens_unsafe by exact Hu; apply preserves_ret
               | |- preserves _ (processCommit _ _ _ _) =>
                   apply Unprompted_processCommit
               | |- preserves _ (forEach _ _) =>
                   apply preserves_forEach; intros ?
               | |- preserves _ (emit _) =>
                   apply (preserves_emit Unprompted
                            (fun e => negb (isTokenPrompt e)) Unprompted_emit);
                   reflexivity
               end). }
  specialize (P initial eq_refl). unfold Unprompted in P.
  rewrite forallb_forall in P. specialize (P _ Hin). discriminate P.
Qed.

Lemma unsafe_never_prompts_for_tokens_witness :
  unsafe unsafeOnly = true
  /\ ~ In (EvConfirmTokens false)
         (trace (finalState (run plainHost hugePrompt unsafeOnly []))).
Proof.
  assert (H : unsafe unsafeOnly = true) by reflexivity.
  split; [exact H|].
  exact (unsafe_never_prompts_for_tokens plainHost hugePrompt unsafeOnly []
           false H).
Defined.

(* ================================================================= *)
(** ** A stream that fails *)

(** X23: when the stream throws after its batches were worked through,
    the run ends with exit code 1 in the state after the last proposal:
    the commits made stay, and neither the pull-request flow nor the push
    is entered. *)
Theorem stream_failure_is_fatal (host : Host) (w : World) (options : Options)
    (args : list string) (jiraTicketId : option string)
    (stream : ElementStream) (s0 s1 : RunState) :
  analyse host w options args initial = Next (jiraTicketId, stream) s0 ->
  forEach (concat (map commits (elements stream)))
    (processCommit host w jiraTicketId) s0 = Next tt s1 ->
  throwsAtEnd stream = true ->
  run host w options args = Exit 1 s1.
Proof.
  intros Ha Hl Ht. unfold run, main. unfold bind at 1. rewrite Ha.
  unfold consumeStream. unfold bind at 1. unfold bind at 1.
  now rewrite forEach_batches, Hl, Ht.
Qed.

Lemma stream_failure_is_fatal_witness :
  throwsAtEnd {| elements := [ {| commits := [featureFlags] |} ];
                 throwsAtEnd := true |} = true
  /\ exitCode (run plainHost brokenStream pushOnly []) = 1
  /\ commitCount (finalState (run plainHost brokenStream pushOnly [])) = 1.
Proof.
  split; [reflexivity|].
  rewrite (stream_failure_is_fatal plainHost brokenStream pushOnly [] None
             _ _ _ eq_refl eq_refl eq_refl).
  split; reflexivity.
Defined.
